(** * FormalLinguisticsEngine UI: the two React components of the front-end

    Shallow embedding of
      - [NfaToRegularGrammar]
        (ling_engine_ui/src/components/layout/ui-container/subsections/nfa-to-regular-grammar.js)
      - [UiContainer] (the ui-container component)
    and of the JavaScript and lodash operations they call. *)

From Stdlib Require Import String Ascii List Bool ZArith Lia Permutation.
Import ListNotations.
Open Scope string_scope.
Set Warnings "-register-all".

(** ** JavaScript values held in component state and in HTTP payloads *)

Module JS.

(** JSON-like values.  Objects keep their own enumerable properties in
    enumeration order. *)
Inductive jsval : Type :=
| JUndefined
| JNull
| JBool (b : bool)
| JNum (n : Z)
| JStr (s : string)
| JArr (elems : list jsval)
| JObj (props : list (string * jsval)).

Definition obj := list (string * jsval).

(** Exceptions the modelled code can raise. *)
Inductive exn : Type :=
| TypeError
| SyntaxError.

Fixpoint lookup (k : string) (o : obj) : option jsval :=
  match o with
  | [] => None
  | (k', v) :: rest => if String.eqb k k' then Some v else lookup k rest
  end.

(** [o.k] on an object: a missing property reads as [undefined]. *)
Definition getprop (o : obj) (k : string) : jsval :=
  match lookup k o with
  | Some v => v
  | None => JUndefined
  end.

(** [o.k = v]: an existing property keeps its place, a new one goes last. *)
Fixpoint setprop (k : string) (v : jsval) (o : obj) : obj :=
  match o with
  | [] => [(k, v)]
  | (k', v') :: rest =>
      if String.eqb k k' then (k', v) :: rest else (k', v') :: setprop k v rest
  end.

(** [Object.assign({}, target, source)]. *)
Definition assign (target source : obj) : obj :=
  fold_left (fun acc kv => setprop (fst kv) (snd kv) acc) source target.

(** [null] and [undefined], whose properties cannot be read. *)
Definition nullish (v : jsval) : bool :=
  match v with
  | JUndefined | JNull => true
  | _ => false
  end.

(** The value of [v.k] when [v] is neither [null] nor [undefined], for a
    property name [k] that no built-in prototype defines (the names read
    by the components: transitionMap, states, initial, finals, alphabet,
    result): a property of an object, [undefined] on any other value. *)
Definition prop (v : jsval) (k : string) : jsval :=
  match v with
  | JObj o => getprop o k
  | _ => JUndefined
  end.

(** [v.k]; reading a property of [null] or [undefined] throws. *)
Definition member (v : jsval) (k : string) : exn + jsval :=
  if nullish v then inl TypeError else inr (prop v k).

(** [v[0]]. *)
Definition index0 (v : jsval) : exn + jsval :=
  match v with
  | JUndefined | JNull => inl TypeError
  | JArr l => inr (nth 0 l JUndefined)
  | JStr s => inr (match s with
                   | EmptyString => JUndefined
                   | String c _ => JStr (String c EmptyString)
                   end)
  | JObj o => inr (getprop o "0")
  | _ => inr JUndefined
  end.

(** Truthiness, as used by [x && e] in [render]. *)
Definition truthy (v : jsval) : bool :=
  match v with
  | JUndefined | JNull => false
  | JBool b => b
  | JNum n => negb (Z.eqb n 0)
  | JStr s => negb (String.eqb s "")
  | JArr _ | JObj _ => true
  end.

(** [String.prototype.split] with a one-character separator. *)
Fixpoint String_split (sep : ascii) (s : string) : list string :=
  match s with
  | EmptyString => [EmptyString]
  | String c rest =>
      if Ascii.eqb c sep then EmptyString :: String_split sep rest
      else match String_split sep rest with
           | [] => [String c EmptyString]
           | piece :: pieces => String c piece :: pieces
           end
  end.

(** [Array.prototype.join] applied to an array of strings. *)
Definition Array_join (sep : string) (l : list string) : string :=
  String.concat sep l.

End JS.

Import JS.

(** ** lodash helpers *)

Module Lodash.

(** [clone] makes a shallow copy; on immutable data the copy has the value
    of the original. *)
Definition clone {A : Type} (v : A) : A := v.

(** The values met while rendering a grammar: strings and (nested) arrays
    of strings. *)
Inductive item : Type :=
| IStr (s : string)
| IArr (elems : list item).

(** [baseToString]: a string is returned as it is, an array is converted
    element by element and the pieces joined with a comma. *)
Fixpoint baseToString (v : item) : string :=
  match v with
  | IStr s => s
  | IArr l => Array_join "," (map baseToString l)
  end.

Definition toString (v : item) : string := baseToString v.

(** [split(string, separator)] with the one-character separator the
    renderer passes: the first argument is converted with [toString] and
    split natively.  The default limit, 2^32-1 pieces, is never reached
    by an array that fits in memory. *)
Definition split (v : item) (sep : ascii) : list string :=
  String_split sep (toString v).

End Lodash.

(** ** The grammar renderer's input and output *)

(** A well-formed GrammarResult: an object mapping each state identifier
    to an array of right-hand-side strings, given by its properties in
    enumeration order (the order of [Object.entries]). *)
Definition GrammarResult := list (string * list string).

(** React elements produced by [renderGrammar]. *)
Inductive element : Type :=
| p (text : string)
| div (className : string) (children : list element).

Definition comma : ascii := ","%char.

Module NfaToRegularGrammar.

Import Lodash.

(** [Object.entries(resultingGrammar)]: one two-element array
    [[key, value]] per property. *)
Definition Object_entries (g : GrammarResult) : list (list item) :=
  map (fun kv => [IStr (fst kv); IArr (map IStr (snd kv))]) g.

(** The array left after [Array.prototype.shift]. *)
Definition shift (a : list item) : list item := tl a.

(** The template literal [`${initial} -> ${rule}`]. *)
Definition display (initial rule : string) : string :=
  initial ++ " -> " ++ rule.

(** The callback [renderGrammar] maps over the entries. *)
Definition renderSection (grammarItems : list item) : element :=
  let initial := match grammarItems with
                 | [] => "undefined"
                 | first :: _ => toString first
                 end in
  let rules := clone grammarItems in
  let rules := shift rules in
  let rules := split (IArr rules) comma in
  div "grammar-section" (map (fun rule => p (display initial rule)) rules).

Definition renderGrammar (resultingGrammar : GrammarResult) : list element :=
  map renderSection (Object_entries resultingGrammar).

(** *** Component state, requests and notifications *)

(** The two endpoints of [config/api-endpoints]. *)
Inductive endpoint : Type :=
| nfaToDfaApi
| nfaToGrammarApi.

(** What a [catch] callback receives: the rejection reason of the request
    (written as its string form), or an exception thrown inside the
    [then] callback of the same chain. *)
Inductive failure : Type :=
| Rejected (reason : string)
| Thrown (e : exn).

(** The component together with what it has done to the outside:
    [alerts] holds, oldest first, the [error] of every call
    [alert('Error while fetchin data!' + error)], and [posts] the calls
    [axios.post(url, request)]. *)
Record world : Type := mkWorld {
  state : obj;
  alerts : list failure;
  posts : list (endpoint * jsval)
}.

(** The state set by the constructor. *)
Definition initialState : obj :=
  [ ("alphabet", JArr [JStr "a"; JStr "b"]);
    ("states", JArr [JStr "Q"; JStr "W"; JStr "E"]);
    ("initial", JArr [JStr "Q"]);
    ("finals", JArr [JStr "W"]);
    ("transitionMap", JObj []);
    ("graphInput", JNull);
    ("isModalOpen", JBool false);
    ("resultingAlphabet", JNull);
    ("resultingStates", JNull);
    ("resultingInitial", JNull);
    ("resultingFinals", JNull);
    ("resultingTransitionMap", JNull);
    ("resultingGrammar", JNull);
    ("loading", JBool false) ].

Definition constructor : world := mkWorld initialState [] [].

(** [this.setState(partial)]: a shallow merge into the current state. *)
Definition setState (partial : obj) (w : world) : world :=
  mkWorld (assign (state w) partial) (alerts w) (posts w).

Definition alert (error : failure) (w : world) : world :=
  mkWorld (state w) (alerts w ++ [error])%list (posts w).

Definition axios_post (url : endpoint) (request : jsval) (w : world) : world :=
  mkWorld (state w) (alerts w) (posts w ++ [(url, request)])%list.

(** [isEqual(field, null)]. *)
Definition isEqual_null (field : jsval) : bool :=
  match field with
  | JNull => true
  | _ => false
  end.

Definition isResultPresent (st : obj) : bool :=
  let resultFields := [getprop st "resultingGrammar"] in
  forallb (fun field => negb (isEqual_null field)) resultFields.

Definition _generateRequestBody (input : obj) : exn + jsval :=
  match index0 (clone (getprop input "initial")) with
  | inl e => inl e
  | inr first =>
      inr (JObj [ ("alphabet", clone (getprop input "alphabet"));
                  ("states", clone (getprop input "states"));
                  ("initial", first);
                  ("finals", clone (getprop input "finals"));
                  ("transitionMap", clone (getprop input "transitionMap")) ])
  end.

Definition _generateGraphInput (input : obj) : jsval :=
  JObj [ ("alphabet", clone (getprop input "resultingAlphabet"));
         ("states", clone (getprop input "resultingStates"));
         ("initial", clone (getprop input "resultingInitial"));
         ("finals", clone (getprop input "resultingFinals"));
         ("transitionMap", clone (getprop input "resultingTransitionMap")) ].

Definition _handleAlphabetChange (alphabet : jsval) : world -> world :=
  setState [("alphabet", alphabet)].

Definition _handleStatesChange (states : jsval) : world -> world :=
  setState [("states", states)].

Definition _handleInitialChange (initial : jsval) : world -> world :=
  setState [("initial", initial)].

Definition _handleFinalsChange (finals : jsval) : world -> world :=
  setState [("finals", finals)].

Definition _handleTransitionMapChange (parsedMap : jsval) : world -> world :=
  setState [("transitionMap", parsedMap)].

Definition _closeModal : world -> world :=
  setState [("isModalOpen", JBool false)].

Definition _openModal : world -> world :=
  setState [("isModalOpen", JBool true)].

(** The click handler of the Convert button.  The request is built from
    the state the handler was entered with; the pending [loading] update
    touches none of the fields it reads.  An exception raised while the
    request is built leaves the handler before any request is posted. *)
Definition _convertToRegularGrammar (w : world) : world * option exn :=
  let w1 := setState [("loading", JBool true)] w in
  match _generateRequestBody (state w) with
  | inl e => (w1, Some e)
  | inr request =>
      (axios_post nfaToGrammarApi request (axios_post nfaToDfaApi request w1),
       None)
  end.

(** The [then] callback of the DFA request, applied to [response.data]. *)
Definition dfaThen (data : jsval) (w : world) : exn + world :=
  match member data "transitionMap" with
  | inl e => inl e
  | inr transitionMap =>
  match member data "states" with
  | inl e => inl e
  | inr states =>
  match member data "initial" with
  | inl e => inl e
  | inr initial =>
  match member data "finals" with
  | inl e => inl e
  | inr finals =>
  match member data "alphabet" with
  | inl e => inl e
  | inr alphabet =>
      let stateToSet :=
        [ ("resultingTransitionMap", transitionMap);
          ("resultingStates", states);
          ("resultingInitial", initial);
          ("resultingFinals", finals);
          ("resultingAlphabet", alphabet) ] in
      inr (setState (stateToSet ++
                     [ ("graphInput", _generateGraphInput stateToSet);
                       ("loading", JBool false) ])%list w)
  end end end end end.

(** The [then] callback of the grammar request. *)
Definition grammarThen (data : jsval) (w : world) : exn + world :=
  match member data "result" with
  | inl e => inl e
  | inr result =>
      let stateToSet := [("resultingGrammar", result)] in
      inr (setState (stateToSet ++ [("loading", JBool false)])%list w)
  end.

(** The [catch] callback, the same text in both chains. *)
Definition onCatch (error : failure) (w : world) : world := alert error w.

(** [promise.then(onThen).catch(onCatch)]: a rejection skips [onThen]; an
    exception thrown by [onThen] is handed to [onCatch]. *)
Definition settle (onThen : jsval -> world -> exn + world)
    (outcome : string + jsval) (w : world) : world :=
  match outcome with
  | inl reason => onCatch (Rejected reason) w
  | inr data =>
      match onThen data w with
      | inl e => onCatch (Thrown e) w
      | inr w' => w'
      end
  end.

(** The field edits the editing widgets deliver. *)
Inductive edit : Type :=
| AlphabetChange (alphabet : jsval)
| StatesChange (states : jsval)
| InitialChange (initial : jsval)
| FinalsChange (finals : jsval)
| TransitionMapChange (parsedMap : jsval).

Definition applyEdit (e : edit) (w : world) : world :=
  match e with
  | AlphabetChange v => _handleAlphabetChange v w
  | StatesChange v => _handleStatesChange v w
  | InitialChange v => _handleInitialChange v w
  | FinalsChange v => _handleFinalsChange v w
  | TransitionMapChange v => _handleTransitionMapChange v w
  end.

(** The events the component reacts to.  A request completes either with
    a rejection reason or with the [data] of its response. *)
Inductive event : Type :=
| Edit (e : edit)
| ConvertClick
| DfaSettled (outcome : string + jsval)
| GrammarSettled (outcome : string + jsval).

Definition step (ev : event) (w : world) : world :=
  match ev with
  | Edit e => applyEdit e w
  | ConvertClick => fst (_convertToRegularGrammar w)
  | DfaSettled outcome => settle dfaThen outcome w
  | GrammarSettled outcome => settle grammarThen outcome w
  end.

(** Events are handled one at a time, in the order they arrive. *)
Definition run (evs : list event) (w : world) : world :=
  fold_left (fun acc ev => step ev acc) evs w.

(** *** What [render] shows of the state *)

Section Render.

(** [converter] of utils/transform-from-dfa-to-graph, and the graph
    structure it returns. *)
Variable Graph : Type.
Variable converter : jsval -> Graph.

(** The spinner: [this.state.loading && ...]. *)
Definition spinnerShown (st : obj) : bool := truthy (getprop st "loading").

(** The graph handed to the Graph widget:
    [this.state.graphInput && <Graph graph={converter(graphInput)} />]. *)
Definition displayedGraph (st : obj) : option Graph :=
  if truthy (getprop st "graphInput")
  then Some (converter (getprop st "graphInput"))
  else None.

(** The value [renderGrammar] is called with:
    [this.isResultPresent() && this.renderGrammar(resultingGrammar)]. *)
Definition displayedGrammar (st : obj) : option jsval :=
  if isResultPresent st then Some (getprop st "resultingGrammar") else None.

End Render.

End NfaToRegularGrammar.

(** ** The ui-container component *)

Module UiContainer.

Import Lodash.

(** The change event of the textarea, reduced to what the handler reads:
    [event.target.value]. *)
Record ChangeEvent : Type := mkChange {
  target_value : string
}.

(** The component together with the trace of its calls to [JSON.parse]:
    [parsed] holds the argument of each call, oldest first. *)
Record world : Type := mkWorld {
  state : obj;
  parsed : list jsval
}.

(** The state set by the constructor. *)
Definition initialState : obj :=
  [ ("alphabet", JArr [JStr "a"; JStr "b"; JStr "c"]);
    ("states", JArr [JNum 0; JNum 1]);
    ("initial", JArr [JNum 0]);
    ("finals", JArr [JNum 1]);
    ("transitionMap", JStr "");
    ("graphInput", JNull) ].

Definition constructor : world := mkWorld initialState [].

Definition setState (partial : obj) (w : world) : world :=
  mkWorld (assign (state w) partial) (parsed w).

Definition _handleAlphabetChange (alphabet : jsval) : world -> world :=
  setState [("alphabet", alphabet)].

Definition _handleStatesChange (states : jsval) : world -> world :=
  setState [("states", states)].

Definition _handleInitialChange (initial : jsval) : world -> world :=
  setState [("initial", initial)].

Definition _handleFinalsChange (finals : jsval) : world -> world :=
  setState [("finals", finals)].

Definition _handleTransitionMapChange (event : ChangeEvent) : world -> world :=
  setState [("transitionMap", JStr (target_value event))].

Section WithJSON.

(** The built-in [JSON.parse]; [None] stands for the SyntaxError it
    throws on text that is not JSON. *)
Variable JSON_parse : jsval -> option jsval.

(** The fields of the object literal are evaluated in the order they
    are written; [trace] is the trace of [JSON.parse] calls so far. *)
Definition _generateGraphInput (state : obj) (trace : list jsval)
  : list jsval * (exn + jsval) :=
  match index0 (clone (getprop state "initial")) with
  | inl e => (trace, inl e)
  | inr first =>
      let text := getprop state "transitionMap" in
      let trace' := (trace ++ [text])%list in
      match JSON_parse text with
      | None => (trace', inl SyntaxError)
      | Some transitionMap =>
          (trace',
           inr (JObj [ ("alphabet", clone (getprop state "alphabet"));
                       ("states", clone (getprop state "states"));
                       ("initial", first);
                       ("finals", clone (getprop state "finals"));
                       ("transitionMap", transitionMap) ]))
      end
  end.

(** The click handler of the Visualize button. *)
Definition onVisualizeClick (w : world) : world * option exn :=
  match _generateGraphInput (state w) (parsed w) with
  | (trace, inl e) => (mkWorld (state w) trace, Some e)
  | (trace, inr generatedOut) =>
      (setState [("graphInput", generatedOut)] (mkWorld (state w) trace),
       None)
  end.

End WithJSON.

(** The field edits the editing widgets deliver. *)
Inductive edit : Type :=
| AlphabetChange (alphabet : jsval)
| StatesChange (states : jsval)
| InitialChange (initial : jsval)
| FinalsChange (finals : jsval)
| TransitionMapChange (event : ChangeEvent).

Definition applyEdit (e : edit) (w : world) : world :=
  match e with
  | AlphabetChange v => _handleAlphabetChange v w
  | StatesChange v => _handleStatesChange v w
  | InitialChange v => _handleInitialChange v w
  | FinalsChange v => _handleFinalsChange v w
  | TransitionMapChange ev => _handleTransitionMapChange ev w
  end.

End UiContainer.

(** ** The automaton model and its graph projection *)

Module AutomatonModel.

(** Modelled from the spec: the AutomatonSpec of section 3, with the
    transition map as the nested mapping state -> symbol -> destination
    states.  The components hold these five fields in their state; the
    code that consumes them as a specification, [converter], is not among
    the sources. *)
Record AutomatonSpec : Type := mkSpec {
  alphabet : list string;
  states : list string;
  initial : string;
  finals : list string;
  (** state -> symbol -> destination states *)
  transitionMap : list (string * list (string * list string))
}.

(** Modelled from the spec: the GraphProjection of section 3.  A node
    carries its id, a label and a style hint that tells initial and final
    states from ordinary ones (a state may be both); an edge carries its
    ends and the symbols that cause the transition. *)
Record styleHint : Type := mkStyle {
  initialStyle : bool;
  finalStyle : bool
}.

Record node : Type := mkNode {
  id : string;
  label : string;
  style : styleHint
}.

Record edge : Type := mkEdge {
  from : string;
  to : string;
  symbols : string
}.

Record GraphProjection : Type := mkGraph {
  nodes : list node;
  edges : list edge
}.

Definition mem (x : string) (l : list string) : bool :=
  existsb (String.eqb x) l.

Fixpoint nodupb (l : list string) : bool :=
  match l with
  | [] => true
  | x :: rest => negb (mem x rest) && nodupb rest
  end.

(** Modelled from the spec: the invariants of a valid AutomatonSpec
    (section 3); the repository's sources contain no check of them.
    [states] is non-empty and without duplicates, [initial] is a member
    of [states], every entry of [finals] is, and every state and symbol
    named by [transitionMap] is declared. *)
Definition valid (s : AutomatonSpec) : bool :=
  negb (Nat.eqb (List.length (states s)) 0)
  && nodupb (states s)
  && mem (initial s) (states s)
  && forallb (fun q => mem q (states s)) (finals s)
  && forallb (fun row =>
       mem (fst row) (states s)
       && forallb (fun cell =>
            mem (fst cell) (alphabet s)
            && forallb (fun d => mem d (states s)) (snd cell))
          (snd row))
     (transitionMap s).

Section Project.

(** The separator put between the symbols of a merged edge; the spec
    leaves it open. *)
Variable separator : string.

(** One edge per destination of every (state, symbol) entry. *)
Definition rawEdges (s : AutomatonSpec) : list edge :=
  flat_map (fun row =>
    flat_map (fun cell =>
      map (fun d => mkEdge (fst row) d (fst cell)) (snd cell))
    (snd row))
  (transitionMap s).

Definition sameEnds (e e' : edge) : bool :=
  String.eqb (from e) (from e') && String.eqb (to e) (to e').

(** Adds one raw edge to the edges merged so far: its symbol joins the
    label of the edge with the same ends, or it becomes a new, last
    edge. *)
Fixpoint addEdge (e : edge) (merged : list edge) : list edge :=
  match merged with
  | [] => [e]
  | m :: rest =>
      if sameEnds m e
      then mkEdge (from m) (to m) (symbols m ++ separator ++ symbols e) :: rest
      else m :: addEdge e rest
  end.

Definition mergeEdges (raw : list edge) : list edge :=
  fold_left (fun merged e => addEdge e merged) raw [].

(** Modelled from the spec: [project] (section 4.2), the graph
    projection the components import as [converter] from
    utils/transform-from-dfa-to-graph, a file that is not among the
    sources.  One node per state, styled initial if it equals
    [initial] and final if it is a member of [finals]; one edge per
    destination, edges with the same ends merged, their symbols in the
    order first seen. *)
Definition project (s : AutomatonSpec) : GraphProjection :=
  mkGraph
    (map (fun q => mkNode q q (mkStyle (String.eqb q (initial s))
                                       (mem q (finals s))))
         (states s))
    (mergeEdges (rawEdges s)).

End Project.

End AutomatonModel.

(** ** Notions the properties are stated with *)

(** The display lines of an element, in document order. *)
Fixpoint textLines (e : element) : list string :=
  match e with
  | p text => [text]
  | div _ children => flat_map textLines children
  end.

Definition renderedLines (g : GrammarResult) : list string :=
  flat_map textLines (NfaToRegularGrammar.renderGrammar g).

(** One ['LHS -> RHS'] line per right-hand-side entry, states in the
    order of the grammar, rules in the order of each state's list. *)
Definition oneLinePerEntry (g : GrammarResult) : list string :=
  flat_map (fun kv => map (NfaToRegularGrammar.display (fst kv)) (snd kv)) g.

(** Number of occurrences of a character in a string. *)
Fixpoint countChar (c : ascii) (s : string) : nat :=
  match s with
  | EmptyString => 0
  | String c' rest => (if Ascii.eqb c' c then 1 else 0) + countChar c rest
  end.

Definition nonEmpty {A : Type} (l : list A) : bool :=
  match l with
  | [] => false
  | _ :: _ => true
  end.

(** Every state has at least one right-hand side and no right-hand side
    contains a comma. *)
Definition commaFree (g : GrammarResult) : bool :=
  forallb (fun kv =>
    nonEmpty (snd kv)
    && forallb (fun r => Nat.eqb (countChar comma r) 0) (snd kv)) g.

Definition sampleGrammar : GrammarResult :=
  [("q0", ["a"; "aq1"]); ("q1", ["b"])].

(** The field an edit names, and the value it delivers for it. *)
Definition editKey (e : NfaToRegularGrammar.edit) : string :=
  match e with
  | NfaToRegularGrammar.AlphabetChange _ => "alphabet"
  | NfaToRegularGrammar.StatesChange _ => "states"
  | NfaToRegularGrammar.InitialChange _ => "initial"
  | NfaToRegularGrammar.FinalsChange _ => "finals"
  | NfaToRegularGrammar.TransitionMapChange _ => "transitionMap"
  end.

Definition editValue (e : NfaToRegularGrammar.edit) : jsval :=
  match e with
  | NfaToRegularGrammar.AlphabetChange v
  | NfaToRegularGrammar.StatesChange v
  | NfaToRegularGrammar.InitialChange v
  | NfaToRegularGrammar.FinalsChange v
  | NfaToRegularGrammar.TransitionMapChange v => v
  end.

Definition uiEditKey (e : UiContainer.edit) : string :=
  match e with
  | UiContainer.AlphabetChange _ => "alphabet"
  | UiContainer.StatesChange _ => "states"
  | UiContainer.InitialChange _ => "initial"
  | UiContainer.FinalsChange _ => "finals"
  | UiContainer.TransitionMapChange _ => "transitionMap"
  end.

Definition uiEditValue (e : UiContainer.edit) : jsval :=
  match e with
  | UiContainer.AlphabetChange v
  | UiContainer.StatesChange v
  | UiContainer.InitialChange v
  | UiContainer.FinalsChange v => v
  | UiContainer.TransitionMapChange event =>
      JStr (UiContainer.target_value event)
  end.

(** The fields of the component state that no edit names. *)
Definition resultFields : list string :=
  [ "resultingAlphabet"; "resultingStates"; "resultingInitial";
    "resultingFinals"; "resultingTransitionMap"; "resultingGrammar";
    "graphInput"; "loading" ].

Definition isString (v : jsval) : bool :=
  match v with
  | JStr _ => true
  | _ => false
  end.

Definition isStringArray (v : jsval) : bool :=
  match v with
  | JArr elems => forallb isString elems
  | _ => false
  end.

Definition isObject (v : jsval) : bool :=
  match v with
  | JObj _ => true
  | _ => false
  end.

(** The shape [{alphabet: [string], states: [string], initial: string,
    finals: [string], transitionMap: object}] of a request body. *)
Definition requestShape (body : jsval) : bool :=
  match body with
  | JObj [ ("alphabet", a); ("states", s); ("initial", i); ("finals", f);
           ("transitionMap", t) ] =>
      isStringArray a && isStringArray s && isString i && isStringArray f
      && isObject t
  | _ => false
  end.

(** A click on Convert is rejected when no request leaves the client. *)
Definition submissionRejected (w : NfaToRegularGrammar.world) : Prop :=
  NfaToRegularGrammar.posts
    (fst (NfaToRegularGrammar._convertToRegularGrammar w)) =
  NfaToRegularGrammar.posts w.

(** A stand-in for [JSON.parse] that accepts the one text ["{}"]. *)
Definition parseEmptyObject (v : jsval) : option jsval :=
  match v with
  | JStr "{}" => Some (JObj [])
  | _ => None
  end.

(** The constructor's state of NfaToRegularGrammar after the initial
    state has been edited to X, which is not among the states Q, W, E. *)
Definition undeclaredInitial : NfaToRegularGrammar.world :=
  NfaToRegularGrammar._handleInitialChange (JArr [JStr "X"])
    NfaToRegularGrammar.constructor.

(** The part of the state written when the DFA request succeeds, and the
    part written when the grammar request succeeds. *)
Definition dfaSlice : list string :=
  [ "resultingTransitionMap"; "resultingStates"; "resultingInitial";
    "resultingFinals"; "resultingAlphabet"; "graphInput"; "loading" ].

Definition grammarSlice : list string :=
  [ "resultingGrammar"; "loading" ].

(** The graph input built from the body of a DFA response. *)
Definition graphInputOf (data : jsval) : jsval :=
  JObj [ ("alphabet", prop data "alphabet");
         ("states", prop data "states");
         ("initial", prop data "initial");
         ("finals", prop data "finals");
         ("transitionMap", prop data "transitionMap") ].

(** The fields of the state a request is built from. *)
Definition inputFields : list string :=
  [ "alphabet"; "states"; "initial"; "finals"; "transitionMap" ].

(** The state fields that hold the DFA of the last successful response. *)
Definition dfaFields : list string :=
  [ "resultingAlphabet"; "resultingStates"; "resultingInitial";
    "resultingFinals"; "resultingTransitionMap" ].

(** The partial state an event of NfaToRegularGrammar merges into the
    component state; nothing for a rejected request and for a response
    whose body is [null] or [undefined]. *)
Definition stateWrite (ev : NfaToRegularGrammar.event) : obj :=
  match ev with
  | NfaToRegularGrammar.Edit e => [(editKey e, editValue e)]
  | NfaToRegularGrammar.ConvertClick => [("loading", JBool true)]
  | NfaToRegularGrammar.DfaSettled (inr data) =>
      if nullish data then []
      else [ ("resultingTransitionMap", prop data "transitionMap");
             ("resultingStates", prop data "states");
             ("resultingInitial", prop data "initial");
             ("resultingFinals", prop data "finals");
             ("resultingAlphabet", prop data "alphabet");
             ("graphInput", graphInputOf data);
             ("loading", JBool false) ]
  | NfaToRegularGrammar.GrammarSettled (inr data) =>
      if nullish data then []
      else [ ("resultingGrammar", prop data "result");
             ("loading", JBool false) ]
  | _ => []
  end.

(** The value a merge of [partial] leaves in property [k] when it held
    [old] before: that of the last entry of [partial] for [k]. *)
Definition override (partial : obj) (k : string) (old : jsval) : jsval :=
  fold_left (fun acc kv => if String.eqb k (fst kv) then snd kv else acc)
            partial old.

(** Requests posted to both endpoints, the DFA endpoint first. *)
Definition bothEndpoints (requests : list jsval)
  : list (NfaToRegularGrammar.endpoint * jsval) :=
  flat_map (fun request =>
              [ (NfaToRegularGrammar.nfaToDfaApi, request);
                (NfaToRegularGrammar.nfaToGrammarApi, request) ])
           requests.

Definition isConvertClick (ev : NfaToRegularGrammar.event) : bool :=
  match ev with
  | NfaToRegularGrammar.ConvertClick => true
  | _ => false
  end.

(** The graph input is the one built from the stored DFA result, or
    there is neither a graph input nor a DFA result yet. *)
Definition graphInSync (st : obj) : Prop :=
  (getprop st "graphInput" = JNull
   /\ Forall (fun k => getprop st k = JNull) dfaFields)
  \/ getprop st "graphInput" = NfaToRegularGrammar._generateGraphInput st.

(** The events of the ui-container component: a field edit or a click on
    Visualize. *)
Inductive uiEvent : Type :=
| UiEdit (e : UiContainer.edit)
| VisualizeClick.

Definition uiStep (JSON_parse : jsval -> option jsval) (ev : uiEvent)
    (w : UiContainer.world) : UiContainer.world :=
  match ev with
  | UiEdit e => UiContainer.applyEdit e w
  | VisualizeClick => fst (UiContainer.onVisualizeClick JSON_parse w)
  end.

Definition uiRun (JSON_parse : jsval -> option jsval) (evs : list uiEvent)
    (w : UiContainer.world) : UiContainer.world :=
  fold_left (fun acc ev => uiStep JSON_parse ev acc) evs w.

Definition isVisualizeClick (ev : uiEvent) : bool :=
  match ev with
  | VisualizeClick => true
  | UiEdit _ => false
  end.

(** A request that completed with a response. *)
Definition isResponse (ev : NfaToRegularGrammar.event) : bool :=
  match ev with
  | NfaToRegularGrammar.DfaSettled (inr _)
  | NfaToRegularGrammar.GrammarSettled (inr _) => true
  | _ => false
  end.

(** The fields that hold what is displayed as the result of a
    conversion. *)
Definition displayedFields : list string :=
  "graphInput" :: "resultingGrammar" :: dfaFields.

(** ** Splitting and joining *)

Section SplitJoin.

Variable sep : ascii.

Lemma String_split_not_nil (s : string) : String_split sep s <> [].
Proof.
  destruct s as [|c s]; simpl; [discriminate|].
  destruct (Ascii.eqb c sep); [discriminate|].
  destruct (String_split sep s); discriminate.
Qed.

Lemma String_split_app (s t : string) :
  String_split sep (s ++ String sep t) =
  (String_split sep s ++ String_split sep t)%list.
Proof.
  induction s as [|c s IH]; simpl.
  - rewrite Ascii.eqb_refl. reflexivity.
  - destruct (Ascii.eqb c sep).
    + rewrite IH. reflexivity.
    + rewrite IH.
      pose proof (String_split_not_nil s) as Hne.
      destruct (String_split sep s) as [|piece pieces]; [contradiction|].
      reflexivity.
Qed.

Lemma String_split_join (first : string) (others : list string) :
  String_split sep (Array_join (String sep "") (first :: others)) =
  flat_map (String_split sep) (first :: others).
Proof.
  unfold Array_join.
  revert first.
  induction others as [|second others IH]; intro first.
  - simpl. rewrite app_nil_r. reflexivity.
  - change (String.concat (String sep "") (first :: second :: others))
      with (first ++ String sep (String.concat (String sep "") (second :: others))).
    rewrite String_split_app, IH. reflexivity.
Qed.

Lemma String_split_length (s : string) :
  List.length (String_split sep s) = S (countChar sep s).
Proof.
  induction s as [|c s IH]; simpl; [reflexivity|].
  destruct (Ascii.eqb c sep); simpl.
  - rewrite IH. reflexivity.
  - destruct (String_split sep s); simpl in *; lia.
Qed.

Lemma String_split_whole (s : string) :
  countChar sep s = 0 -> String_split sep s = [s].
Proof.
  induction s as [|c s IH]; simpl; [reflexivity|].
  destruct (Ascii.eqb c sep); simpl; [discriminate|].
  intro H. rewrite (IH H). reflexivity.
Qed.

Lemma String_split_join_whole (l : list string) :
  nonEmpty l = true ->
  forallb (fun r => Nat.eqb (countChar sep r) 0) l = true ->
  String_split sep (Array_join (String sep "") l) = l.
Proof.
  destruct l as [|first others]; [discriminate|].
  intros _ Hall.
  rewrite String_split_join.
  induction (first :: others) as [|r rs IH]; [reflexivity|].
  simpl in Hall. apply andb_true_iff in Hall as [Hr Hrs].
  apply Nat.eqb_eq in Hr.
  simpl. rewrite (String_split_whole r Hr), (IH Hrs). reflexivity.
Qed.

End SplitJoin.

Example String_split_pieces :
  String_split comma "a,,b," = ["a"; ""; "b"; ""].
Proof. reflexivity. Qed.

Example String_split_empty : String_split comma "" = [""].
Proof. reflexivity. Qed.

Example split_nested_array :
  Lodash.split (Lodash.IArr [Lodash.IArr [Lodash.IStr "a"; Lodash.IStr "aq1"]])
    comma = ["a"; "aq1"].
Proof. reflexivity. Qed.

(** ** The grammar renderer *)

Section Renderer.

Import NfaToRegularGrammar.

Lemma baseToString_strings (l : list string) :
  map Lodash.baseToString (map Lodash.IStr l) = l.
Proof.
  induction l as [|s l IH]; simpl; [reflexivity|].
  rewrite IH. reflexivity.
Qed.

(** The section rendered for one property of the grammar. *)
Lemma renderSection_entry (k : string) (rhs : list string) :
  renderSection [Lodash.IStr k; Lodash.IArr (map Lodash.IStr rhs)] =
  div "grammar-section"
    (map (fun rule => p (display k rule))
         (String_split comma (Array_join "," rhs))).
Proof.
  unfold renderSection, Lodash.split, Lodash.toString, Lodash.clone, shift.
  cbn [tl Lodash.baseToString map].
  rewrite baseToString_strings.
  change (Array_join "," [Array_join "," rhs]) with (Array_join "," rhs).
  reflexivity.
Qed.

Lemma renderGrammar_sections (g : GrammarResult) :
  renderGrammar g =
  map (fun kv =>
         div "grammar-section"
           (map (fun rule => p (display (fst kv) rule))
                (String_split comma (Array_join "," (snd kv))))) g.
Proof.
  unfold renderGrammar, Object_entries.
  rewrite map_map.
  apply map_ext. intros [k rhs]. apply renderSection_entry.
Qed.

Lemma textLines_paragraphs (f : string -> string) (l : list string) :
  flat_map textLines (map (fun rule => p (f rule)) l) = map f l.
Proof.
  induction l as [|r l IH]; simpl; [reflexivity|].
  rewrite IH. reflexivity.
Qed.

Lemma map_over_pieces {A B C : Type} (f : B -> C) (pieces : A -> list B)
    (l : list A) :
  map f (flat_map pieces l) = flat_map (fun r => map f (pieces r)) l.
Proof.
  induction l as [|r l IH]; [reflexivity|].
  cbn [flat_map]. rewrite map_app, IH. reflexivity.
Qed.

End Renderer.

Example renderGrammar_sample :
  NfaToRegularGrammar.renderGrammar sampleGrammar =
  [ div "grammar-section" [p "q0 -> a"; p "q0 -> aq1"];
    div "grammar-section" [p "q1 -> b"] ].
Proof. reflexivity. Qed.

(** The grammar written in the comment of [renderGrammar]. *)
Example renderGrammar_comment :
  renderedLines [("q0", ["a"; "aq1"]); ("q1", ["a"; "aq1"]); ("q2", ["bq0"])] =
  ["q0 -> a"; "q0 -> aq1"; "q1 -> a"; "q1 -> aq1"; "q2 -> bq0"].
Proof. reflexivity. Qed.

(** C1, refuted as stated: the renderer does not always produce one line
    per right-hand-side entry.  The single entry ["a,b"] of state q0 is
    rendered as two lines, and the empty rule list of a state as one
    line. *)
Lemma renderGrammar_not_one_line_per_entry :
  renderedLines [("q0", ["a,b"])] = ["q0 -> a"; "q0 -> b"] /\
  renderedLines [("q0", ["a,b"])] <> oneLinePerEntry [("q0", ["a,b"])] /\
  renderedLines [("q0", [])] = ["q0 -> "] /\
  renderedLines [("q0", [])] <> oneLinePerEntry [("q0", [])].
Proof.
  repeat split; try reflexivity; vm_compute; discriminate.
Qed.

(** C1, amended: for every GrammarResult in which every state has at
    least one right-hand side and no right-hand side contains a comma,
    the renderer produces one section per state, in the order of the
    grammar, holding exactly one 'LHS -> RHS' line per right-hand-side
    entry in the order of the state's list; in particular the grammar
    {"q0": ["a","aq1"], "q1": ["b"]} renders q0 -> a, q0 -> aq1,
    q1 -> b, in that order. *)
Theorem renderGrammar_one_line_per_entry (g : GrammarResult) :
  commaFree g = true ->
  NfaToRegularGrammar.renderGrammar g =
    map (fun kv =>
           div "grammar-section"
             (map (fun rule => p (NfaToRegularGrammar.display (fst kv) rule))
                  (snd kv))) g
  /\ renderedLines g = oneLinePerEntry g
  /\ renderedLines sampleGrammar = ["q0 -> a"; "q0 -> aq1"; "q1 -> b"].
Proof.
  intro Hfree.
  assert (Hsections :
    NfaToRegularGrammar.renderGrammar g =
    map (fun kv =>
           div "grammar-section"
             (map (fun rule => p (NfaToRegularGrammar.display (fst kv) rule))
                  (snd kv))) g).
  { rewrite renderGrammar_sections.
    induction g as [|[k rhs] g IH]; [reflexivity|].
    simpl in Hfree. apply andb_true_iff in Hfree as [Hk Hg].
    apply andb_true_iff in Hk as [Hne Hall].
    cbn [map fst snd].
    pose proof (String_split_join_whole comma rhs Hne Hall) as Hrhs.
    change (String comma "") with "," in Hrhs.
    rewrite Hrhs, (IH Hg).
    reflexivity. }
  split; [exact Hsections|].
  split; [|reflexivity].
  unfold renderedLines, oneLinePerEntry.
  rewrite Hsections.
  clear Hfree Hsections.
  induction g as [|[k rhs] g IH]; [reflexivity|].
  cbn [map flat_map fst snd textLines].
  rewrite IH, textLines_paragraphs. reflexivity.
Qed.

Lemma renderGrammar_one_line_per_entry_witness :
  commaFree sampleGrammar = true /\
  renderedLines sampleGrammar = oneLinePerEntry sampleGrammar.
Proof.
  split; [reflexivity|].
  apply (renderGrammar_one_line_per_entry sampleGrammar). reflexivity.
Defined.

(** C6, refuted as stated: a state that maps to an empty list of
    right-hand sides is not rendered as nothing; its section holds one
    line, with an empty right-hand side. *)
Lemma empty_rule_list_not_silent :
  NfaToRegularGrammar.renderGrammar [("q0", [])] =
    [div "grammar-section" [p "q0 -> "]] /\
  renderedLines [("q0", [])] <> [].
Proof.
  split; [reflexivity|]. vm_compute. discriminate.
Qed.

(** C6, amended: for every GrammarResult in which some state maps to an
    empty list of right-hand sides, the renderer emits for that state a
    section with exactly one line, 'LHS -> ' followed by the empty
    string. *)
Theorem empty_rule_list_renders_one_line
    (before after : GrammarResult) (k : string) :
  NfaToRegularGrammar.renderGrammar (before ++ (k, []) :: after)%list =
    (NfaToRegularGrammar.renderGrammar before ++
     div "grammar-section" [p (k ++ " -> ")] ::
     NfaToRegularGrammar.renderGrammar after)%list
  /\ textLines (div "grammar-section" [p (k ++ " -> ")]) = [k ++ " -> "].
Proof.
  split; [|reflexivity].
  rewrite !renderGrammar_sections, map_app.
  reflexivity.
Qed.

(** C10: the section the renderer emits for a state holds one line per
    piece of the comma-split of the comma-join of the state's list of
    right-hand sides; for a non-empty list these are the comma-separated
    fragments of each entry in turn, and an entry has one fragment more
    than it has commas, so an entry that contains a comma is rendered as
    several lines. *)
Theorem renderGrammar_splits_on_commas :
  (forall g : GrammarResult,
     NfaToRegularGrammar.renderGrammar g =
     map (fun kv =>
            div "grammar-section"
              (map (fun rule => p (NfaToRegularGrammar.display (fst kv) rule))
                   (String_split comma (Array_join "," (snd kv))))) g)
  /\ (forall (k first : string) (others : list string),
        renderedLines [(k, first :: others)] =
        flat_map (fun r => map (NfaToRegularGrammar.display k)
                               (String_split comma r))
                 (first :: others))
  /\ (forall r : string,
        List.length (String_split comma r) = S (countChar comma r)).
Proof.
  split; [exact renderGrammar_sections|].
  split; [|exact (String_split_length comma)].
  intros k first others.
  unfold renderedLines.
  rewrite renderGrammar_sections.
  cbn [map flat_map fst snd textLines].
  rewrite app_nil_r, textLines_paragraphs.
  change "," with (String comma "").
  rewrite String_split_join, map_over_pieces.
  reflexivity.
Qed.

(** ** Reading and writing properties *)

Section Objects.

Lemma getprop_setprop (k k' : string) (v : jsval) (o : obj) :
  getprop (setprop k v o) k' =
  if String.eqb k' k then v else getprop o k'.
Proof.
  unfold getprop.
  induction o as [|[k0 v0] o IH]; simpl.
  - destruct (String.eqb k' k); reflexivity.
  - destruct (String.eqb k k0) eqn:Hk; simpl.
    + apply String.eqb_eq in Hk. subst k0.
      destruct (String.eqb k' k); reflexivity.
    + destruct (String.eqb k' k0) eqn:Hk'; [|exact IH].
      apply String.eqb_eq in Hk'. subst k0.
      rewrite String.eqb_sym, Hk. reflexivity.
Qed.

(** A merge leaves alone every property the partial state does not
    name. *)
Lemma getprop_assign_frame (k : string) (partial o : obj) :
  forallb (fun kv => negb (String.eqb k (fst kv))) partial = true ->
  getprop (assign o partial) k = getprop o k.
Proof.
  unfold assign. revert o.
  induction partial as [|[k0 v0] partial IH]; intros o Hframe;
    [reflexivity|].
  simpl in Hframe. apply andb_true_iff in Hframe as [Hk0 Hrest].
  cbn [fold_left fst snd].
  rewrite (IH _ Hrest), getprop_setprop.
  apply negb_true_iff in Hk0. rewrite Hk0. reflexivity.
Qed.

Lemma getprop_assign_one (k k' : string) (v : jsval) (o : obj) :
  getprop (assign o [(k, v)]) k' =
  if String.eqb k' k then v else getprop o k'.
Proof. apply getprop_setprop. Qed.

End Objects.

(** Reads of literal property names after a merge of literal partial
    states. *)
Ltac read_props :=
  cbn [assign fold_left fst snd app];
  repeat (rewrite getprop_setprop; cbn [String.eqb Ascii.eqb Bool.eqb]).

(** ** The edit handlers *)

(** C9: each single-field edit handler of either component replaces the
    field it is named after by the delivered value and leaves every
    other field of the component state as it was, the result fields,
    graphInput and loading among them; it raises no notification, posts
    no request and parses nothing. *)
Theorem edit_handlers_touch_one_field :
  (forall (e : NfaToRegularGrammar.edit) (w : NfaToRegularGrammar.world),
     (forall k : string,
        getprop (NfaToRegularGrammar.state (NfaToRegularGrammar.applyEdit e w)) k =
        if String.eqb k (editKey e) then editValue e
        else getprop (NfaToRegularGrammar.state w) k)
     /\ Forall (fun k =>
          getprop (NfaToRegularGrammar.state (NfaToRegularGrammar.applyEdit e w)) k =
          getprop (NfaToRegularGrammar.state w) k) resultFields
     /\ NfaToRegularGrammar.alerts (NfaToRegularGrammar.applyEdit e w) =
        NfaToRegularGrammar.alerts w
     /\ NfaToRegularGrammar.posts (NfaToRegularGrammar.applyEdit e w) =
        NfaToRegularGrammar.posts w)
  /\
  (forall (e : UiContainer.edit) (w : UiContainer.world),
     (forall k : string,
        getprop (UiContainer.state (UiContainer.applyEdit e w)) k =
        if String.eqb k (uiEditKey e) then uiEditValue e
        else getprop (UiContainer.state w) k)
     /\ Forall (fun k =>
          getprop (UiContainer.state (UiContainer.applyEdit e w)) k =
          getprop (UiContainer.state w) k) resultFields
     /\ UiContainer.parsed (UiContainer.applyEdit e w) = UiContainer.parsed w).
Proof.
  split; intros e w.
  - assert (Hget : forall k : string,
        getprop (NfaToRegularGrammar.state (NfaToRegularGrammar.applyEdit e w)) k =
        if String.eqb k (editKey e) then editValue e
        else getprop (NfaToRegularGrammar.state w) k).
    { intro k. destruct e; apply getprop_assign_one. }
    split; [exact Hget|].
    split; [|split; destruct e; reflexivity].
    unfold resultFields.
    repeat constructor; rewrite Hget; destruct e; reflexivity.
  - assert (Hget : forall k : string,
        getprop (UiContainer.state (UiContainer.applyEdit e w)) k =
        if String.eqb k (uiEditKey e) then uiEditValue e
        else getprop (UiContainer.state w) k).
    { intro k. destruct e; apply getprop_assign_one. }
    split; [exact Hget|].
    split; [|destruct e; reflexivity].
    unfold resultFields.
    repeat constructor; rewrite Hget; destruct e; reflexivity.
Qed.

(** ** Submitting a specification *)

Section Submission.

Import NfaToRegularGrammar.

(** The request built from a state whose initial-state list has a first
    entry. *)
Lemma generateRequestBody_first (st : obj) (q : jsval) (rest : list jsval) :
  getprop st "initial" = JArr (q :: rest) ->
  _generateRequestBody st =
  inr (JObj [ ("alphabet", getprop st "alphabet");
              ("states", getprop st "states");
              ("initial", q);
              ("finals", getprop st "finals");
              ("transitionMap", getprop st "transitionMap") ]).
Proof.
  intro Hinit. unfold _generateRequestBody, Lodash.clone.
  rewrite Hinit. reflexivity.
Qed.

(** With an empty initial-state list the request carries [undefined]
    in its [initial] field. *)
Lemma generateRequestBody_no_initial (st : obj) :
  getprop st "initial" = JArr [] ->
  exists body, _generateRequestBody st = inr body
               /\ prop body "initial" = JUndefined.
Proof.
  intro Hinit. unfold _generateRequestBody, Lodash.clone.
  rewrite Hinit. eexists. split; reflexivity.
Qed.

Lemma convert_posts (w : world) (request : jsval) :
  _generateRequestBody (state w) = inr request ->
  _convertToRegularGrammar w =
  (mkWorld (assign (state w) [("loading", JBool true)])
           (alerts w)
           (posts w ++ [(nfaToDfaApi, request); (nfaToGrammarApi, request)]),
   None).
Proof.
  intro Hreq. unfold _convertToRegularGrammar. rewrite Hreq.
  unfold axios_post, setState. cbn [state alerts posts].
  rewrite <- app_assoc. reflexivity.
Qed.

End Submission.

(** C5, refuted as stated: the posted request body does not always have
    the shape {alphabet: [string], states: [string], initial: string,
    finals: [string], transitionMap: object}.  Once the initial-state
    list has been emptied, a click on Convert posts both requests with
    an undefined initial field, not a state identifier; once the
    transition-map editor has delivered null, it posts both requests
    with a transition map that is not an object. *)
Lemma request_body_shape_not_universal :
  map (fun post => (fst post, prop (snd post) "initial",
                    requestShape (snd post)))
      (NfaToRegularGrammar.posts
         (NfaToRegularGrammar.run
            [ NfaToRegularGrammar.Edit
                (NfaToRegularGrammar.InitialChange (JArr []));
              NfaToRegularGrammar.ConvertClick ]
            NfaToRegularGrammar.constructor)) =
  [ (NfaToRegularGrammar.nfaToDfaApi, JUndefined, false);
    (NfaToRegularGrammar.nfaToGrammarApi, JUndefined, false) ]
  /\
  map (fun post => (fst post, prop (snd post) "transitionMap",
                    requestShape (snd post)))
      (NfaToRegularGrammar.posts
         (NfaToRegularGrammar.run
            [ NfaToRegularGrammar.Edit
                (NfaToRegularGrammar.TransitionMapChange JNull);
              NfaToRegularGrammar.ConvertClick ]
            NfaToRegularGrammar.constructor)) =
  [ (NfaToRegularGrammar.nfaToDfaApi, JNull, false);
    (NfaToRegularGrammar.nfaToGrammarApi, JNull, false) ].
Proof.
  split; reflexivity.
Qed.

(** C5, amended: when the tag editors hold arrays of strings, the
    initial-state list has a first entry and the transition map is an
    object, the body posted to both endpoints of the conversion service
    has the shape {alphabet: [string], states: [string], initial: string,
    finals: [string], transitionMap: object}; its initial field is the
    first element of the edited initial-state list, a single string and
    not an array, and the other fields are those of the state. *)
Theorem request_body_shape
    (w : NfaToRegularGrammar.world) (q : string) (rest : list jsval) :
  let st := NfaToRegularGrammar.state w in
  isStringArray (getprop st "alphabet") = true ->
  isStringArray (getprop st "states") = true ->
  isStringArray (getprop st "finals") = true ->
  isObject (getprop st "transitionMap") = true ->
  getprop st "initial" = JArr (JStr q :: rest) ->
  exists body : jsval,
    NfaToRegularGrammar._generateRequestBody st = inr body
    /\ requestShape body = true
    /\ prop body "initial" = JStr q
    /\ prop body "alphabet" = getprop st "alphabet"
    /\ prop body "states" = getprop st "states"
    /\ prop body "finals" = getprop st "finals"
    /\ prop body "transitionMap" = getprop st "transitionMap"
    /\ NfaToRegularGrammar.posts
         (fst (NfaToRegularGrammar._convertToRegularGrammar w)) =
       (NfaToRegularGrammar.posts w ++
        [ (NfaToRegularGrammar.nfaToDfaApi, body);
          (NfaToRegularGrammar.nfaToGrammarApi, body) ])%list.
Proof.
  intros st Ha Hs Hf Ht Hinit.
  pose proof (generateRequestBody_first st (JStr q) rest Hinit) as Hbody.
  eexists. split; [exact Hbody|].
  split.
  { unfold requestShape. rewrite Ha, Hs, Hf, Ht. reflexivity. }
  repeat (split; [reflexivity|]).
  rewrite (convert_posts w _ Hbody). reflexivity.
Qed.

Lemma request_body_shape_witness :
  exists body : jsval,
    NfaToRegularGrammar._generateRequestBody
      (NfaToRegularGrammar.state NfaToRegularGrammar.constructor) = inr body
    /\ requestShape body = true
    /\ prop body "initial" = JStr "Q".
Proof.
  destruct (request_body_shape NfaToRegularGrammar.constructor "Q" []
              eq_refl eq_refl eq_refl eq_refl eq_refl)
    as [body [Hbody [Hshape [Hinit _]]]].
  exists body. repeat split; assumption.
Defined.

Section Visualize.

Import UiContainer.

Variable JSON_parse : jsval -> option jsval.

(** A click on Visualize when the transition text does not parse: the
    SyntaxError leaves the handler and no state is set. *)
Lemma visualize_malformed (w : world) :
  nullish (getprop (state w) "initial") = false ->
  JSON_parse (getprop (state w) "transitionMap") = None ->
  onVisualizeClick JSON_parse w =
  (mkWorld (state w) (parsed w ++ [getprop (state w) "transitionMap"]),
   Some SyntaxError).
Proof.
  intros Hinit Hparse.
  unfold onVisualizeClick, _generateGraphInput, Lodash.clone.
  destruct (getprop (state w) "initial"); try discriminate;
    cbn [index0]; rewrite Hparse; reflexivity.
Qed.

(** A click on Visualize when the transition text parses. *)
Lemma visualize_parsed (w : world) (transitionMap : jsval) :
  nullish (getprop (state w) "initial") = false ->
  JSON_parse (getprop (state w) "transitionMap") = Some transitionMap ->
  exists first : jsval,
    index0 (getprop (state w) "initial") = inr first /\
    onVisualizeClick JSON_parse w =
    (setState
       [("graphInput",
         JObj [ ("alphabet", getprop (state w) "alphabet");
                ("states", getprop (state w) "states");
                ("initial", first);
                ("finals", getprop (state w) "finals");
                ("transitionMap", transitionMap) ])]
       (mkWorld (state w)
                (parsed w ++ [getprop (state w) "transitionMap"])),
     None).
Proof.
  intros Hinit Hparse.
  unfold onVisualizeClick, _generateGraphInput, Lodash.clone.
  destruct (getprop (state w) "initial"); try discriminate;
    cbn [index0]; rewrite Hparse; eexists; split; reflexivity.
Qed.

End Visualize.

(** C4: in the ui-container component, editing the transition-map field
    stores the raw text of the textarea as it is, whatever it holds, and
    no edit handler calls JSON.parse; the text is parsed once, by a click
    on Visualize: text that does not parse raises a SyntaxError there
    and leaves the state as it was, text that parses becomes the
    transition map of the graph input. *)
Theorem transition_text_parsed_on_visualize
    (JSON_parse : jsval -> option jsval) (w : UiContainer.world) :
  nullish (getprop (UiContainer.state w) "initial") = false ->
  (forall event : UiContainer.ChangeEvent,
     let w' := UiContainer._handleTransitionMapChange event w in
     getprop (UiContainer.state w') "transitionMap" =
       JStr (UiContainer.target_value event)
     /\ UiContainer.parsed w' = UiContainer.parsed w)
  /\ (forall e : UiContainer.edit,
        UiContainer.parsed (UiContainer.applyEdit e w) = UiContainer.parsed w)
  /\ (let text := getprop (UiContainer.state w) "transitionMap" in
      let after := UiContainer.onVisualizeClick JSON_parse w in
      UiContainer.parsed (fst after) = (UiContainer.parsed w ++ [text])%list
      /\ (JSON_parse text = None ->
          snd after = Some SyntaxError
          /\ UiContainer.state (fst after) = UiContainer.state w)
      /\ (forall transitionMap : jsval,
            JSON_parse text = Some transitionMap ->
            snd after = None
            /\ prop (getprop (UiContainer.state (fst after)) "graphInput")
                 "transitionMap" = transitionMap)).
Proof.
  intro Hinit.
  split.
  { intros event w'. subst w'. split; [|reflexivity].
    unfold UiContainer._handleTransitionMapChange, UiContainer.setState.
    cbn [UiContainer.state]. rewrite getprop_assign_one. reflexivity. }
  split; [intro e; destruct e; reflexivity|].
  cbv zeta.
  destruct (JSON_parse (getprop (UiContainer.state w) "transitionMap"))
    as [transitionMap|] eqn:Hparse.
  - destruct (visualize_parsed JSON_parse w transitionMap Hinit Hparse)
      as [first [_ Hclick]].
    rewrite Hclick. cbn [fst snd].
    split; [reflexivity|].
    split; [discriminate|].
    intros tm Htm. injection Htm as <-.
    split; [reflexivity|].
    unfold UiContainer.setState. cbn [UiContainer.state].
    rewrite getprop_assign_one. reflexivity.
  - rewrite (visualize_malformed JSON_parse w Hinit Hparse).
    cbn [fst snd UiContainer.parsed UiContainer.state].
    split; [reflexivity|].
    split; [intros _; split; reflexivity|].
    intros tm Htm. discriminate.
Qed.

Lemma transition_text_parsed_on_visualize_witness :
  let w := UiContainer._handleTransitionMapChange
             (UiContainer.mkChange "{not json") UiContainer.constructor in
  getprop (UiContainer.state w) "transitionMap" = JStr "{not json"
  /\ snd (UiContainer.onVisualizeClick parseEmptyObject w) = Some SyntaxError.
Proof.
  cbv zeta.
  split.
  - apply (transition_text_parsed_on_visualize parseEmptyObject
             UiContainer.constructor eq_refl).
  - apply (transition_text_parsed_on_visualize parseEmptyObject
             (UiContainer._handleTransitionMapChange
                (UiContainer.mkChange "{not json") UiContainer.constructor)
             eq_refl).
    reflexivity.
Defined.

(** C7, refuted as stated: a specification whose initial state X is not
    a member of its states Q, W, E is not rejected; the click on Convert
    raises no error and posts both requests, with X as the initial
    state. *)
Lemma undeclared_initial_is_submitted :
  getprop (NfaToRegularGrammar.state undeclaredInitial) "initial" =
    JArr [JStr "X"]
  /\ getprop (NfaToRegularGrammar.state undeclaredInitial) "states" =
    JArr [JStr "Q"; JStr "W"; JStr "E"]
  /\ ~ In (JStr "X") [JStr "Q"; JStr "W"; JStr "E"]
  /\ snd (NfaToRegularGrammar._convertToRegularGrammar undeclaredInitial) = None
  /\ map (fun post => (fst post, prop (snd post) "initial"))
       (NfaToRegularGrammar.posts
          (fst (NfaToRegularGrammar._convertToRegularGrammar undeclaredInitial))) =
     [ (NfaToRegularGrammar.nfaToDfaApi, JStr "X");
       (NfaToRegularGrammar.nfaToGrammarApi, JStr "X") ]
  /\ ~ submissionRejected undeclaredInitial.
Proof.
  repeat split; try reflexivity.
  - simpl. intros [H|[H|[H|[]]]]; discriminate.
  - unfold submissionRejected. vm_compute. discriminate.
Qed.

(** C7, amended: the components do not validate the initial state.  For
    every specification whose initial state is not a member of its
    states list, a click on Convert raises no error and posts both
    requests with that initial state, and a click on Visualize fails only
    if the transition text does not parse and otherwise sets a graph
    input with that initial state. *)
Theorem undeclared_initial_not_rejected
    (JSON_parse : jsval -> option jsval)
    (w : NfaToRegularGrammar.world) (u : UiContainer.world)
    (q : jsval) (rest declared : list jsval) :
  ~ In q declared ->
  (getprop (NfaToRegularGrammar.state w) "initial" = JArr (q :: rest) ->
   getprop (NfaToRegularGrammar.state w) "states" = JArr declared ->
   snd (NfaToRegularGrammar._convertToRegularGrammar w) = None
   /\ ~ submissionRejected w
   /\ exists body : jsval,
        prop body "initial" = q
        /\ NfaToRegularGrammar.posts
             (fst (NfaToRegularGrammar._convertToRegularGrammar w)) =
           (NfaToRegularGrammar.posts w ++
            [ (NfaToRegularGrammar.nfaToDfaApi, body);
              (NfaToRegularGrammar.nfaToGrammarApi, body) ])%list)
  /\
  (getprop (UiContainer.state u) "initial" = JArr (q :: rest) ->
   getprop (UiContainer.state u) "states" = JArr declared ->
   let after := UiContainer.onVisualizeClick JSON_parse u in
   (snd after = None \/ snd after = Some SyntaxError)
   /\ (snd after = Some SyntaxError <->
       JSON_parse (getprop (UiContainer.state u) "transitionMap") = None)
   /\ (snd after = None ->
       prop (getprop (UiContainer.state (fst after)) "graphInput") "initial" = q)).
Proof.
  intros _. split.
  - intros Hinit _.
    pose proof (generateRequestBody_first _ q rest Hinit) as Hbody.
    unfold submissionRejected.
    rewrite (convert_posts w _ Hbody).
    cbn [fst snd NfaToRegularGrammar.posts].
    split; [reflexivity|].
    split.
    + intro Heq. apply (f_equal (@List.length _)) in Heq.
      rewrite length_app in Heq. simpl in Heq. lia.
    + eexists. split; [|reflexivity]. reflexivity.
  - intros Hinit _ after. subst after.
    assert (Hnn : nullish (getprop (UiContainer.state u) "initial") = false)
      by (rewrite Hinit; reflexivity).
    destruct (JSON_parse (getprop (UiContainer.state u) "transitionMap"))
      as [transitionMap|] eqn:Hparse.
    + destruct (visualize_parsed JSON_parse u transitionMap Hnn Hparse)
        as [first [Hfirst Hclick]].
      rewrite Hinit in Hfirst. cbn [index0 nth] in Hfirst.
      injection Hfirst as <-.
      rewrite Hclick. cbn [fst snd].
      split; [left; reflexivity|].
      split; [split; discriminate|].
      intros _. unfold UiContainer.setState. cbn [UiContainer.state].
      rewrite getprop_assign_one. reflexivity.
    + rewrite (visualize_malformed JSON_parse u Hnn Hparse). cbn [fst snd].
      split; [right; reflexivity|].
      split; [split; reflexivity|].
      discriminate.
Qed.

Lemma undeclared_initial_not_rejected_witness :
  ~ In (JStr "X") [JStr "Q"; JStr "W"; JStr "E"]
  /\ snd (NfaToRegularGrammar._convertToRegularGrammar undeclaredInitial) = None.
Proof.
  assert (Hout : ~ In (JStr "X") [JStr "Q"; JStr "W"; JStr "E"]).
  { simpl. intros [H|[H|[H|[]]]]; discriminate. }
  split; [exact Hout|].
  apply (undeclared_initial_not_rejected parseEmptyObject undeclaredInitial
           UiContainer.constructor (JStr "X") []
           [JStr "Q"; JStr "W"; JStr "E"] Hout);
    reflexivity.
Defined.

(** ** Completion of the two conversion requests *)

Section Completions.

Import NfaToRegularGrammar.

Lemma settle_rejected (onThen : jsval -> world -> exn + world)
    (reason : string) (w : world) :
  settle onThen (inl reason) w =
  mkWorld (state w) (alerts w ++ [Rejected reason]) (posts w).
Proof. reflexivity. Qed.

Lemma settle_dfa_resolved (data : jsval) (w : world) :
  nullish data = false ->
  settle dfaThen (inr data) w =
  setState [ ("resultingTransitionMap", prop data "transitionMap");
             ("resultingStates", prop data "states");
             ("resultingInitial", prop data "initial");
             ("resultingFinals", prop data "finals");
             ("resultingAlphabet", prop data "alphabet");
             ("graphInput", graphInputOf data);
             ("loading", JBool false) ] w.
Proof.
  intro Hdata. unfold settle, dfaThen, member. rewrite Hdata.
  reflexivity.
Qed.

Lemma settle_grammar_resolved (data : jsval) (w : world) :
  nullish data = false ->
  settle grammarThen (inr data) w =
  setState [ ("resultingGrammar", prop data "result");
             ("loading", JBool false) ] w.
Proof.
  intro Hdata. unfold settle, grammarThen, member. rewrite Hdata.
  reflexivity.
Qed.

(** A response body that is [null] or [undefined] makes the [then]
    callback throw; the [catch] callback of the chain reports it. *)
Lemma settle_resolved_nullish (data : jsval) (w : world) :
  nullish data = true ->
  settle dfaThen (inr data) w = alert (Thrown TypeError) w
  /\ settle grammarThen (inr data) w = alert (Thrown TypeError) w.
Proof.
  intro Hdata. unfold settle, dfaThen, grammarThen, member.
  rewrite Hdata. split; reflexivity.
Qed.

Lemma outside_slice (k : string) (slice : list string) (partial : obj) :
  map fst partial = slice ->
  existsb (String.eqb k) slice = false ->
  forallb (fun kv => negb (String.eqb k (fst kv))) partial = true.
Proof.
  intros <-. induction partial as [|[k0 v0] partial IH]; [reflexivity|].
  simpl. intro H. apply orb_false_iff in H as [Hk0 Hrest].
  rewrite Hk0, (IH Hrest). reflexivity.
Qed.

End Completions.

(** A click on Convert in the constructor's state. *)
Example convert_constructor :
  NfaToRegularGrammar.posts
    (NfaToRegularGrammar.run [NfaToRegularGrammar.ConvertClick]
       NfaToRegularGrammar.constructor) =
  let request :=
    JObj [ ("alphabet", JArr [JStr "a"; JStr "b"]);
           ("states", JArr [JStr "Q"; JStr "W"; JStr "E"]);
           ("initial", JStr "Q");
           ("finals", JArr [JStr "W"]);
           ("transitionMap", JObj []) ] in
  [ (NfaToRegularGrammar.nfaToDfaApi, request);
    (NfaToRegularGrammar.nfaToGrammarApi, request) ].
Proof. reflexivity. Qed.

(** C2: when one of the two conversion requests fails and the other
    succeeds, in whichever order they complete, the successful one
    writes its own slice of the state and nothing else, and the failed
    one writes no state and raises the only error notification.  With
    the DFA request successful the displayed graph is the one of the DFA
    response and the grammar result stays as it was; with the grammar
    request successful the grammar result is the one of the response and
    the DFA result and the graph stay as they were. *)
Theorem completions_are_independent
    (Graph : Type) (converter : jsval -> Graph)
    (w : NfaToRegularGrammar.world) (data : jsval) (reason : string) :
  nullish data = false ->
  (let dfaFirst := NfaToRegularGrammar.run
         [ NfaToRegularGrammar.DfaSettled (inr data);
           NfaToRegularGrammar.GrammarSettled (inl reason) ] w in
   let dfaLast := NfaToRegularGrammar.run
         [ NfaToRegularGrammar.GrammarSettled (inl reason);
           NfaToRegularGrammar.DfaSettled (inr data) ] w in
   dfaFirst = dfaLast
   /\ NfaToRegularGrammar.displayedGraph Graph converter
        (NfaToRegularGrammar.state dfaFirst) =
      Some (converter (graphInputOf data))
   /\ getprop (NfaToRegularGrammar.state dfaFirst) "resultingGrammar" =
      getprop (NfaToRegularGrammar.state w) "resultingGrammar"
   /\ (forall k : string,
         existsb (String.eqb k) dfaSlice = false ->
         getprop (NfaToRegularGrammar.state dfaFirst) k =
         getprop (NfaToRegularGrammar.state w) k)
   /\ NfaToRegularGrammar.alerts dfaFirst =
      (NfaToRegularGrammar.alerts w ++ [NfaToRegularGrammar.Rejected reason])%list)
  /\
  (let grammarFirst := NfaToRegularGrammar.run
         [ NfaToRegularGrammar.GrammarSettled (inr data);
           NfaToRegularGrammar.DfaSettled (inl reason) ] w in
   let grammarLast := NfaToRegularGrammar.run
         [ NfaToRegularGrammar.DfaSettled (inl reason);
           NfaToRegularGrammar.GrammarSettled (inr data) ] w in
   grammarFirst = grammarLast
   /\ getprop (NfaToRegularGrammar.state grammarFirst) "resultingGrammar" =
      prop data "result"
   /\ NfaToRegularGrammar.displayedGraph Graph converter
        (NfaToRegularGrammar.state grammarFirst) =
      NfaToRegularGrammar.displayedGraph Graph converter
        (NfaToRegularGrammar.state w)
   /\ (forall k : string,
         existsb (String.eqb k) grammarSlice = false ->
         getprop (NfaToRegularGrammar.state grammarFirst) k =
         getprop (NfaToRegularGrammar.state w) k)
   /\ NfaToRegularGrammar.alerts grammarFirst =
      (NfaToRegularGrammar.alerts w ++ [NfaToRegularGrammar.Rejected reason])%list).
Proof.
  intro Hdata.
  unfold NfaToRegularGrammar.run.
  cbn [fold_left NfaToRegularGrammar.step].
  rewrite !settle_rejected, !settle_dfa_resolved, !settle_grammar_resolved
    by exact Hdata.
  unfold NfaToRegularGrammar.setState.
  cbn [NfaToRegularGrammar.state NfaToRegularGrammar.alerts
       NfaToRegularGrammar.posts].
  split; cbv zeta.
  - split; [reflexivity|].
    split.
    { unfold NfaToRegularGrammar.displayedGraph.
      cbn [NfaToRegularGrammar.state]. read_props. reflexivity. }
    split; [cbn [NfaToRegularGrammar.state]; read_props; reflexivity|].
    split; [|reflexivity].
    intros k Hk. cbn [NfaToRegularGrammar.state].
    apply getprop_assign_frame.
    apply (outside_slice k dfaSlice); [reflexivity|exact Hk].
  - split; [reflexivity|].
    split; [cbn [NfaToRegularGrammar.state]; read_props; reflexivity|].
    split.
    { unfold NfaToRegularGrammar.displayedGraph.
      cbn [NfaToRegularGrammar.state]. read_props. reflexivity. }
    split; [|reflexivity].
    intros k Hk. cbn [NfaToRegularGrammar.state].
    apply getprop_assign_frame.
    apply (outside_slice k grammarSlice); [reflexivity|exact Hk].
Qed.

Lemma completions_are_independent_witness :
  let w := NfaToRegularGrammar.run
      [ NfaToRegularGrammar.ConvertClick;
        NfaToRegularGrammar.DfaSettled
          (inr (JObj [("states", JArr [JStr "Q"])]));
        NfaToRegularGrammar.GrammarSettled (inl "Network Error") ]
      NfaToRegularGrammar.constructor in
  NfaToRegularGrammar.displayedGraph jsval (fun graphInput => graphInput)
    (NfaToRegularGrammar.state w) =
  Some (graphInputOf (JObj [("states", JArr [JStr "Q"])])).
Proof.
  cbv zeta.
  apply (completions_are_independent jsval (fun graphInput => graphInput)
           (NfaToRegularGrammar.run [NfaToRegularGrammar.ConvertClick]
              NfaToRegularGrammar.constructor)
           (JObj [("states", JArr [JStr "Q"])]) "Network Error" eq_refl).
Defined.

(** C3 on the code: a click on Convert followed by the failure of both
    requests raises one error notification per request and leaves every
    field but loading as it was, so the displayed results are unchanged;
    but loading, set by the click, is cleared by neither failure, and
    the spinner stays on screen: a failed request writes no state at
    all. *)
Theorem failed_requests_keep_spinner
    (w : NfaToRegularGrammar.world) (reason1 reason2 : string) :
  let w' := NfaToRegularGrammar.run
      [ NfaToRegularGrammar.ConvertClick;
        NfaToRegularGrammar.DfaSettled (inl reason1);
        NfaToRegularGrammar.GrammarSettled (inl reason2) ] w in
  NfaToRegularGrammar.spinnerShown (NfaToRegularGrammar.state w') = true
  /\ (forall k : string,
        getprop (NfaToRegularGrammar.state w') k =
        if String.eqb k "loading" then JBool true
        else getprop (NfaToRegularGrammar.state w) k)
  /\ NfaToRegularGrammar.alerts w' =
     (NfaToRegularGrammar.alerts w ++
      [ NfaToRegularGrammar.Rejected reason1;
        NfaToRegularGrammar.Rejected reason2 ])%list
  /\ (forall (v : NfaToRegularGrammar.world) (reason : string),
        NfaToRegularGrammar.state
          (NfaToRegularGrammar.step
             (NfaToRegularGrammar.DfaSettled (inl reason)) v) =
        NfaToRegularGrammar.state v
        /\ NfaToRegularGrammar.state
             (NfaToRegularGrammar.step
                (NfaToRegularGrammar.GrammarSettled (inl reason)) v) =
           NfaToRegularGrammar.state v).
Proof.
  cbv zeta.
  unfold NfaToRegularGrammar.run.
  cbn [fold_left NfaToRegularGrammar.step].
  rewrite !settle_rejected.
  cbn [NfaToRegularGrammar.state NfaToRegularGrammar.alerts].
  assert (Hstate :
    NfaToRegularGrammar.state
      (fst (NfaToRegularGrammar._convertToRegularGrammar w)) =
    assign (NfaToRegularGrammar.state w) [("loading", JBool true)]).
  { unfold NfaToRegularGrammar._convertToRegularGrammar.
    destruct (NfaToRegularGrammar._generateRequestBody
                (NfaToRegularGrammar.state w)); reflexivity. }
  assert (Halerts :
    NfaToRegularGrammar.alerts
      (fst (NfaToRegularGrammar._convertToRegularGrammar w)) =
    NfaToRegularGrammar.alerts w).
  { unfold NfaToRegularGrammar._convertToRegularGrammar.
    destruct (NfaToRegularGrammar._generateRequestBody
                (NfaToRegularGrammar.state w)); reflexivity. }
  rewrite Hstate, Halerts.
  split.
  { unfold NfaToRegularGrammar.spinnerShown.
    rewrite getprop_assign_one. reflexivity. }
  split; [intro k; apply getprop_assign_one|].
  split; [rewrite <- app_assoc; reflexivity|].
  intros v reason. split; reflexivity.
Qed.

(** ** The graph projection *)

Section Projection.

Import AutomatonModel.

Variable separator : string.

Lemma mem_In (x : string) (l : list string) : mem x l = true <-> In x l.
Proof.
  unfold mem. rewrite existsb_exists. split.
  - intros [y [Hy Heq]]. apply String.eqb_eq in Heq. subst y. exact Hy.
  - intro Hx. exists x. split; [exact Hx|apply String.eqb_refl].
Qed.

Lemma nodupb_NoDup (l : list string) : nodupb l = true -> NoDup l.
Proof.
  induction l as [|x l IH]; simpl; intro H; constructor.
  - apply andb_true_iff in H as [Hx _].
    apply negb_true_iff in Hx. intro Hin.
    apply mem_In in Hin. congruence.
  - apply andb_true_iff in H as [_ Hl]. exact (IH Hl).
Qed.

(** Merging keeps the ends of the edges: an edge of the merged list has
    the ends of the added edge or of an edge merged before. *)
Lemma addEdge_ends (e : edge) (merged : list edge) (x : edge) :
  In x (addEdge separator e merged) ->
  (from x = from e /\ to x = to e)
  \/ exists m, In m merged /\ from x = from m /\ to x = to m.
Proof.
  induction merged as [|m merged IH]; simpl.
  - intros [<-|[]]. left. split; reflexivity.
  - destruct (sameEnds m e).
    + intros [<-|Hin]; right.
      * exists m. split; [left; reflexivity|split; reflexivity].
      * exists x. split; [right; exact Hin|split; reflexivity].
    + intros [<-|Hin].
      * right. exists m. split; [left; reflexivity|split; reflexivity].
      * destruct (IH Hin) as [Hends|[m' [Hm' Hends]]]; [left; exact Hends|].
        right. exists m'. split; [right; exact Hm'|exact Hends].
Qed.

Lemma fold_addEdge_ends (raw merged : list edge) (x : edge) :
  In x (fold_left (fun acc e => addEdge separator e acc) raw merged) ->
  exists r, In r (merged ++ raw) /\ from x = from r /\ to x = to r.
Proof.
  revert merged.
  induction raw as [|e raw IH]; intros merged Hin; simpl in Hin.
  - exists x. rewrite app_nil_r. split; [exact Hin|split; reflexivity].
  - destruct (IH _ Hin) as [r [Hr [Hf Ht]]].
    apply in_app_or in Hr as [Hr|Hr].
    + destruct (addEdge_ends e merged r Hr) as [[Hf' Ht']|[m [Hm [Hf' Ht']]]].
      * exists e. split; [apply in_or_app; right; left; reflexivity|].
        split; congruence.
      * exists m. split; [apply in_or_app; left; exact Hm|].
        split; congruence.
    + exists r. split; [apply in_or_app; right; right; exact Hr|].
      split; assumption.
Qed.

Lemma mergeEdges_ends (raw : list edge) (x : edge) :
  In x (mergeEdges separator raw) ->
  exists r, In r raw /\ from x = from r /\ to x = to r.
Proof.
  unfold mergeEdges. intro Hin.
  exact (fold_addEdge_ends raw [] x Hin).
Qed.

Lemma rawEdges_declared (s : AutomatonSpec) (r : edge) :
  valid s = true ->
  In r (rawEdges s) ->
  In (from r) (states s) /\ In (to r) (states s).
Proof.
  unfold valid. intros Hvalid Hin.
  apply andb_true_iff in Hvalid as [_ Hmap].
  rewrite forallb_forall in Hmap.
  unfold rawEdges in Hin.
  apply in_flat_map in Hin as [row [Hrow Hin]].
  apply in_flat_map in Hin as [cell [Hcell Hin]].
  apply in_map_iff in Hin as [d [<- Hd]].
  specialize (Hmap row Hrow).
  apply andb_true_iff in Hmap as [Hfrom Hcells].
  rewrite forallb_forall in Hcells.
  specialize (Hcells cell Hcell).
  apply andb_true_iff in Hcells as [_ Hdests].
  rewrite forallb_forall in Hdests.
  split; apply mem_In; [exact Hfrom|exact (Hdests d Hd)].
Qed.

Lemma project_node_ids (s : AutomatonSpec) :
  map id (nodes (project separator s)) = states s.
Proof.
  unfold project. cbn [nodes]. rewrite map_map. cbn [id]. apply map_id.
Qed.

End Projection.

(** The example of the spec: two nodes, Q -> W on a and W -> Q on b. *)
Example project_sample :
  AutomatonModel.project ","
    (AutomatonModel.mkSpec ["a"; "b"] ["Q"; "W"] "Q" ["W"]
       [ ("Q", [("a", ["W"])]); ("W", [("b", ["Q"])]) ]) =
  AutomatonModel.mkGraph
    [ AutomatonModel.mkNode "Q" "Q" (AutomatonModel.mkStyle true false);
      AutomatonModel.mkNode "W" "W" (AutomatonModel.mkStyle false true) ]
    [ AutomatonModel.mkEdge "Q" "W" "a"; AutomatonModel.mkEdge "W" "Q" "b" ].
Proof. reflexivity. Qed.

(** Two symbols between the same states give one edge. *)
Example project_merges :
  AutomatonModel.edges
    (AutomatonModel.project ","
       (AutomatonModel.mkSpec ["a"; "b"] ["A"; "B"] "A" []
          [ ("A", [("a", ["B"]); ("b", ["B"])]) ])) =
  [ AutomatonModel.mkEdge "A" "B" "a,b" ].
Proof. reflexivity. Qed.

(** C8: for every valid AutomatonSpec the graph projection has the
    states as the ids of its nodes, in order, so exactly one node per
    state; a node is styled initial exactly if its state equals the
    spec's initial state and final exactly if its state is a member of
    the spec's finals; and both ends of every edge are ids of nodes, and
    so states of the spec. *)
Theorem project_nodes_and_edges
    (separator : string) (s : AutomatonModel.AutomatonSpec) :
  AutomatonModel.valid s = true ->
  let g := AutomatonModel.project separator s in
  map AutomatonModel.id (AutomatonModel.nodes g) = AutomatonModel.states s
  /\ (forall q : string,
        In q (AutomatonModel.states s) ->
        count_occ string_dec
          (map AutomatonModel.id (AutomatonModel.nodes g)) q = 1)
  /\ (forall n : AutomatonModel.node,
        In n (AutomatonModel.nodes g) ->
        In (AutomatonModel.id n) (AutomatonModel.states s)
        /\ AutomatonModel.initialStyle (AutomatonModel.style n) =
           String.eqb (AutomatonModel.id n) (AutomatonModel.initial s)
        /\ AutomatonModel.finalStyle (AutomatonModel.style n) =
           AutomatonModel.mem (AutomatonModel.id n) (AutomatonModel.finals s))
  /\ (forall e : AutomatonModel.edge,
        In e (AutomatonModel.edges g) ->
        In (AutomatonModel.from e)
           (map AutomatonModel.id (AutomatonModel.nodes g))
        /\ In (AutomatonModel.to e)
             (map AutomatonModel.id (AutomatonModel.nodes g))).
Proof.
  intros Hvalid g. subst g.
  rewrite project_node_ids.
  split; [reflexivity|].
  split.
  { assert (Hnodup : NoDup (AutomatonModel.states s)).
    { apply nodupb_NoDup. unfold AutomatonModel.valid in Hvalid.
      do 3 (apply andb_true_iff in Hvalid as [Hvalid _]).
      apply andb_true_iff in Hvalid as [_ Hvalid]. exact Hvalid. }
    intros q Hq.
    apply (proj1 (NoDup_count_occ' string_dec _) Hnodup q Hq). }
  split.
  { intros n Hn. unfold AutomatonModel.project in Hn.
    cbn [AutomatonModel.nodes] in Hn.
    apply in_map_iff in Hn as [q [<- Hq]].
    cbn. repeat split. exact Hq. }
  intros e He. unfold AutomatonModel.project in He.
  cbn [AutomatonModel.edges] in He.
  destruct (mergeEdges_ends separator _ e He) as [r [Hr [-> ->]]].
  exact (rawEdges_declared s r Hvalid Hr).
Qed.

Lemma project_nodes_and_edges_witness :
  let s := AutomatonModel.mkSpec ["a"; "b"] ["Q"; "W"] "Q" ["W"]
             [ ("Q", [("a", ["W"]); ("b", ["W"])]); ("W", [("b", ["Q"])]) ] in
  AutomatonModel.valid s = true
  /\ map AutomatonModel.id (AutomatonModel.nodes (AutomatonModel.project "," s)) =
     ["Q"; "W"].
Proof.
  cbv zeta. split; [reflexivity|].
  apply (project_nodes_and_edges ","
           (AutomatonModel.mkSpec ["a"; "b"] ["Q"; "W"] "Q" ["W"]
              [ ("Q", [("a", ["W"]); ("b", ["W"])]); ("W", [("b", ["Q"])]) ])
           eq_refl).
Defined.

(** ** More on the renderer: fragments and line counts *)

Section Fragments.

Variable sep : ascii.

Lemma String_split_pieces_free (s : string) :
  Forall (fun piece => countChar sep piece = 0) (String_split sep s).
Proof.
  induction s as [|c s IH]; simpl.
  - constructor; [reflexivity|constructor].
  - destruct (Ascii.eqb c sep) eqn:Hc.
    + constructor; [reflexivity|exact IH].
    + destruct (String_split sep s) as [|piece pieces].
      * constructor; [simpl; rewrite Hc; reflexivity|constructor].
      * inversion IH as [|? ? Hpiece Hpieces]; subst.
        constructor; [simpl; rewrite Hc; exact Hpiece|exact Hpieces].
Qed.

Lemma join_cons (piece : string) (pieces : list string) :
  pieces <> [] ->
  Array_join (String sep "") (piece :: pieces) =
  piece ++ String sep (Array_join (String sep "") pieces).
Proof.
  destruct pieces as [|second pieces]; [contradiction|reflexivity].
Qed.

(** Joining the pieces of a string gives the string back. *)
Lemma Array_join_String_split (s : string) :
  Array_join (String sep "") (String_split sep s) = s.
Proof.
  induction s as [|c s IH]; [reflexivity|].
  simpl String_split.
  destruct (Ascii.eqb c sep) eqn:Hc.
  - apply Ascii.eqb_eq in Hc. subst c.
    rewrite join_cons by apply String_split_not_nil.
    rewrite IH. reflexivity.
  - pose proof (String_split_not_nil sep s) as Hne.
    destruct (String_split sep s) as [|piece pieces]; [contradiction|].
    destruct pieces as [|second pieces].
    + simpl in IH. simpl. rewrite IH. reflexivity.
    + rewrite join_cons by discriminate.
      rewrite join_cons in IH by discriminate.
      cbn [append]. rewrite IH. reflexivity.
Qed.

Lemma countChar_app (s t : string) :
  countChar sep (s ++ t) = countChar sep s + countChar sep t.
Proof.
  induction s as [|c s IH]; simpl; [reflexivity|].
  rewrite IH. lia.
Qed.

Lemma countChar_join (first : string) (others : list string) :
  countChar sep (Array_join (String sep "") (first :: others)) =
  list_sum (map (countChar sep) (first :: others)) + List.length others.
Proof.
  revert first.
  induction others as [|second others IH]; intro first.
  - simpl. lia.
  - rewrite join_cons by discriminate.
    rewrite countChar_app. cbn [countChar]. rewrite Ascii.eqb_refl.
    rewrite IH. simpl. lia.
Qed.

End Fragments.

Example join_split_sample :
  Array_join "," (String_split comma ",a,,b") = ",a,,b".
Proof. reflexivity. Qed.

(** X1: the renderer emits one grammar-section per state, in the order
    of the grammar, and never an empty one.  The lines of a state are
    'LHS -> fragment' for fragments that contain no comma, and the
    fragments joined with commas give the comma-join of the state's
    list: only the boundaries between entries are lost. *)
Theorem renderGrammar_fragments (g : GrammarResult) :
  Forall2
    (fun kv section =>
       exists pieces : list string,
         section =
           div "grammar-section"
             (map (fun piece => p (NfaToRegularGrammar.display (fst kv) piece))
                  pieces)
         /\ pieces <> []
         /\ Forall (fun piece => countChar comma piece = 0) pieces
         /\ Array_join "," pieces = Array_join "," (snd kv))
    g (NfaToRegularGrammar.renderGrammar g).
Proof.
  rewrite renderGrammar_sections.
  induction g as [|[k rhs] g IH]; [constructor|].
  cbn [map]. constructor; [|exact IH].
  exists (String_split comma (Array_join "," rhs)).
  split; [reflexivity|].
  split; [apply String_split_not_nil|].
  split; [apply String_split_pieces_free|].
  exact (Array_join_String_split comma (Array_join "," rhs)).
Qed.

(** X2: the number of lines rendered for a grammar is the sum, over its
    states, of one plus the number of commas in the comma-join of the
    state's list.  So there is at least one line per state and at least
    one line per right-hand-side entry: no entry is ever dropped. *)
Theorem renderGrammar_line_count (g : GrammarResult) :
  List.length (renderedLines g) =
    list_sum (map (fun kv => S (countChar comma (Array_join "," (snd kv)))) g)
  /\ List.length g <= List.length (renderedLines g)
  /\ List.length (oneLinePerEntry g) <= List.length (renderedLines g).
Proof.
  unfold renderedLines, oneLinePerEntry.
  rewrite renderGrammar_sections.
  induction g as [|[k rhs] g [IHn [IHg IHe]]]; [repeat split; simpl; lia|].
  cbn [map flat_map fst snd textLines list_sum].
  rewrite !length_app, textLines_paragraphs, !length_map.
  rewrite String_split_length.
  cbn [List.length].
  assert (Hentries :
    List.length rhs <= S (countChar comma (Array_join "," rhs))).
  { destruct rhs as [|first others]; [simpl; lia|].
    change "," with (String comma "").
    rewrite countChar_join. simpl. lia. }
  change (list_sum
            (S (countChar comma (Array_join "," rhs)) ::
             map (fun kv : string * list string =>
                    S (countChar comma (Array_join "," (snd kv)))) g))
    with (S (countChar comma (Array_join "," rhs)) +
          list_sum
            (map (fun kv : string * list string =>
                    S (countChar comma (Array_join "," (snd kv)))) g)).
  repeat split; lia.
Qed.

(** ** Merges, property by property *)

Section Merges.

Lemma getprop_assign (partial o : obj) (k : string) :
  getprop (assign o partial) k = override partial k (getprop o k).
Proof.
  unfold assign, override. revert o.
  induction partial as [|[k0 v0] partial IH]; intro o; [reflexivity|].
  cbn [fold_left fst snd].
  rewrite IH, getprop_setprop. reflexivity.
Qed.

Lemma override_outside (partial : obj) (k : string) (old : jsval) :
  forallb (fun kv => negb (String.eqb k (fst kv))) partial = true ->
  override partial k old = old.
Proof.
  unfold override. revert old.
  induction partial as [|[k0 v0] partial IH]; intros old Hout; [reflexivity|].
  simpl in Hout. apply andb_true_iff in Hout as [Hk0 Hrest].
  apply negb_true_iff in Hk0.
  cbn [fold_left fst snd]. rewrite Hk0. exact (IH old Hrest).
Qed.

Lemma override_inside (partial : obj) (k : string) (old old' : jsval) :
  existsb (fun kv => String.eqb k (fst kv)) partial = true ->
  override partial k old = override partial k old'.
Proof.
  unfold override. revert old old'.
  induction partial as [|[k0 v0] partial IH]; intros old old' Hin;
    [discriminate|].
  cbn [fold_left fst snd]. simpl in Hin.
  destruct (String.eqb k k0); [reflexivity|].
  exact (IH old old' Hin).
Qed.

Lemma setprop_keys (k : string) (v : jsval) (o : obj) :
  In k (map fst o) -> map fst (setprop k v o) = map fst o.
Proof.
  induction o as [|[k0 v0] o IH]; [intros []|].
  simpl. destruct (String.eqb k k0) eqn:Hk; [reflexivity|].
  intros [Heq|Hin].
  - subst k0. rewrite String.eqb_refl in Hk. discriminate.
  - simpl. rewrite (IH Hin). reflexivity.
Qed.

Lemma assign_keys (partial o : obj) :
  incl (map fst partial) (map fst o) ->
  map fst (assign o partial) = map fst o.
Proof.
  unfold assign. revert o.
  induction partial as [|[k0 v0] partial IH]; intros o Hincl; [reflexivity|].
  cbn [fold_left fst snd].
  assert (Hk0 : In k0 (map fst o)) by (apply Hincl; left; reflexivity).
  rewrite IH; rewrite (setprop_keys k0 v0 o Hk0).
  - reflexivity.
  - intros k Hk. apply Hincl. right. exact Hk.
Qed.

Lemma setprop_twice (k : string) (v v' : jsval) (o : obj) :
  setprop k v' (setprop k v o) = setprop k v' o.
Proof.
  induction o as [|[k0 v0] o IH]; simpl.
  - rewrite String.eqb_refl. reflexivity.
  - destruct (String.eqb k k0) eqn:Hk; simpl; rewrite Hk; [reflexivity|].
    rewrite IH. reflexivity.
Qed.

End Merges.

(** ** Steps of NfaToRegularGrammar, event by event *)

Section Steps.

Import NfaToRegularGrammar.

Lemma convert_state (w : world) :
  state (fst (_convertToRegularGrammar w)) =
  assign (state w) [("loading", JBool true)].
Proof.
  unfold _convertToRegularGrammar.
  destruct (_generateRequestBody (state w)); reflexivity.
Qed.

Lemma convert_alerts (w : world) :
  alerts (fst (_convertToRegularGrammar w)) = alerts w.
Proof.
  unfold _convertToRegularGrammar.
  destruct (_generateRequestBody (state w)); reflexivity.
Qed.

(** Every step merges the partial state of its event. *)
Lemma step_state (ev : event) (w : world) :
  state (step ev w) = assign (state w) (stateWrite ev).
Proof.
  destruct ev as [e| |[reason|data]|[reason|data]]; cbn [step stateWrite].
  - destruct e; reflexivity.
  - apply convert_state.
  - reflexivity.
  - unfold settle, dfaThen, member.
    destruct (nullish data); reflexivity.
  - reflexivity.
  - unfold settle, grammarThen, member.
    destruct (nullish data); reflexivity.
Qed.

Lemma run_cons (ev : event) (evs : list event) (w : world) :
  run (ev :: evs) w = run evs (step ev w).
Proof. reflexivity. Qed.

Lemma stateWrite_keys (ev : event) :
  incl (map fst (stateWrite ev)) (map fst initialState).
Proof.
  destruct ev as [e| |[reason|data]|[reason|data]]; cbn [stateWrite].
  - destruct e; intros k [<-|[]]; simpl; tauto.
  - intros k [<-|[]]; simpl; tauto.
  - intros k [].
  - destruct (nullish data); [intros k []|].
    intros k Hk. simpl in Hk. simpl.
    repeat (destruct Hk as [<-|Hk]; [tauto|]). destruct Hk.
  - intros k [].
  - destruct (nullish data); [intros k []|].
    intros k Hk. simpl in Hk. simpl.
    repeat (destruct Hk as [<-|Hk]; [tauto|]). destruct Hk.
Qed.

End Steps.

(** ** Building and posting the request *)

(** X3: the request body is built from the five input fields alone: a
    merge that names none of them (loading, the result fields, the graph
    input, the modal flag) leaves the request as it was, so the result
    of an earlier conversion never reaches a later request. *)
Theorem request_reads_input_fields (st partial : obj) :
  forallb (fun kv => negb (existsb (String.eqb (fst kv)) inputFields))
          partial = true ->
  NfaToRegularGrammar._generateRequestBody (assign st partial) =
  NfaToRegularGrammar._generateRequestBody st.
Proof.
  intro Hout.
  assert (Hread : forall k, In k inputFields ->
            getprop (assign st partial) k = getprop st k).
  { intros k Hk. apply getprop_assign_frame.
    rewrite forallb_forall in Hout. apply forallb_forall.
    intros kv Hkv. specialize (Hout kv Hkv).
    apply negb_true_iff in Hout. apply negb_true_iff.
    destruct (String.eqb k (fst kv)) eqn:Heq; [|reflexivity].
    apply String.eqb_eq in Heq. subst k.
    assert (Hin : existsb (String.eqb (fst kv)) inputFields = true).
    { apply existsb_exists. exists (fst kv).
      split; [exact Hk|apply String.eqb_refl]. }
    congruence. }
  unfold NfaToRegularGrammar._generateRequestBody.
  rewrite !Hread by (simpl; tauto).
  reflexivity.
Qed.

Lemma request_reads_input_fields_witness :
  NfaToRegularGrammar._generateRequestBody
    (assign NfaToRegularGrammar.initialState
       [("loading", JBool true); ("resultingGrammar", JObj [])]) =
  NfaToRegularGrammar._generateRequestBody NfaToRegularGrammar.initialState.
Proof.
  apply (request_reads_input_fields NfaToRegularGrammar.initialState
           [("loading", JBool true); ("resultingGrammar", JObj [])]).
  reflexivity.
Defined.

(** X4: a click on Convert fails exactly when the initial field is null
    or undefined, with a TypeError and without posting anything, yet
    with loading already set; in every other state, whatever loading
    holds at the time, it posts one request to the DFA endpoint and the
    same request to the grammar endpoint. *)
Theorem convert_click_outcome (w : NfaToRegularGrammar.world) :
  let after := NfaToRegularGrammar._convertToRegularGrammar w in
  NfaToRegularGrammar.spinnerShown (NfaToRegularGrammar.state (fst after)) = true
  /\ if nullish (getprop (NfaToRegularGrammar.state w) "initial")
     then snd after = Some TypeError
          /\ NfaToRegularGrammar.posts (fst after) = NfaToRegularGrammar.posts w
     else snd after = None
          /\ exists request : jsval,
               NfaToRegularGrammar._generateRequestBody
                 (NfaToRegularGrammar.state w) = inr request
               /\ NfaToRegularGrammar.posts (fst after) =
                  (NfaToRegularGrammar.posts w ++ bothEndpoints [request])%list.
Proof.
  cbv zeta. split.
  { rewrite convert_state. unfold NfaToRegularGrammar.spinnerShown.
    rewrite getprop_assign_one. reflexivity. }
  destruct (NfaToRegularGrammar._generateRequestBody
              (NfaToRegularGrammar.state w)) as [e|request] eqn:Hreq.
  - unfold NfaToRegularGrammar._generateRequestBody, Lodash.clone in Hreq.
    unfold NfaToRegularGrammar._convertToRegularGrammar.
    unfold NfaToRegularGrammar._generateRequestBody, Lodash.clone.
    destruct (getprop (NfaToRegularGrammar.state w) "initial");
      cbn [index0 nullish] in *; try discriminate; split; reflexivity.
  - rewrite (convert_posts w request Hreq). cbn [fst snd NfaToRegularGrammar.posts].
    unfold NfaToRegularGrammar._generateRequestBody, Lodash.clone in Hreq.
    destruct (getprop (NfaToRegularGrammar.state w) "initial");
      cbn [index0 nullish] in *; try discriminate;
      (split; [reflexivity|]); exists request; split; reflexivity.
Qed.

Section Posts.

Import NfaToRegularGrammar.

Lemma step_posts (ev : event) (w : world) :
  exists requests : list jsval,
    posts (step ev w) = (posts w ++ bothEndpoints requests)%list
    /\ List.length requests <= (if isConvertClick ev then 1 else 0).
Proof.
  destruct ev as [e| |[reason|data]|[reason|data]]; cbn [step isConvertClick].
  - exists []. rewrite app_nil_r. split; [destruct e; reflexivity|simpl; lia].
  - destruct (_generateRequestBody (state w)) as [e|request] eqn:Hreq.
    + exists []. rewrite app_nil_r. split; [|simpl; lia].
      unfold _convertToRegularGrammar. rewrite Hreq. reflexivity.
    + exists [request]. split; [|simpl; lia].
      rewrite (convert_posts w request Hreq). reflexivity.
  - exists []. rewrite app_nil_r. split; [reflexivity|simpl; lia].
  - exists []. rewrite app_nil_r. split; [|simpl; lia].
    unfold settle, dfaThen, member. destruct (nullish data); reflexivity.
  - exists []. rewrite app_nil_r. split; [reflexivity|simpl; lia].
  - exists []. rewrite app_nil_r. split; [|simpl; lia].
    unfold settle, grammarThen, member. destruct (nullish data); reflexivity.
Qed.

Lemma bothEndpoints_app (l l' : list jsval) :
  bothEndpoints (l ++ l') = (bothEndpoints l ++ bothEndpoints l')%list.
Proof. unfold bothEndpoints. apply flat_map_app. Qed.

End Posts.

(** X5: over any sequence of events, requests leave the component only
    in pairs: what is posted is a list of requests, each sent to the DFA
    endpoint and then, unchanged, to the grammar endpoint, at most one
    such pair per click on Convert; edits and completed requests post
    nothing. *)
Theorem requests_go_to_both_endpoints
    (evs : list NfaToRegularGrammar.event) (w : NfaToRegularGrammar.world) :
  exists requests : list jsval,
    NfaToRegularGrammar.posts (NfaToRegularGrammar.run evs w) =
      (NfaToRegularGrammar.posts w ++ bothEndpoints requests)%list
    /\ List.length requests <= List.length (filter isConvertClick evs).
Proof.
  revert w.
  induction evs as [|ev evs IH]; intro w.
  - exists []. split; [simpl; rewrite app_nil_r; reflexivity|simpl; lia].
  - rewrite run_cons.
    destruct (IH (NfaToRegularGrammar.step ev w)) as [later [Hlater Hn]].
    destruct (step_posts ev w) as [now [Hnow Hm]].
    exists (now ++ later)%list. split.
    + rewrite Hlater, Hnow, bothEndpoints_app, app_assoc. reflexivity.
    + rewrite length_app. simpl filter.
      destruct (isConvertClick ev); simpl; lia.
Qed.

(** ** Invariants of the component state *)

(** X6: a state that has the fields set by the constructor keeps exactly
    its fields, in their order, over any sequence of events: no handler
    or callback adds, removes or moves a field. *)
Theorem state_keeps_its_fields
    (w : NfaToRegularGrammar.world) (evs : list NfaToRegularGrammar.event) :
  incl (map fst NfaToRegularGrammar.initialState)
       (map fst (NfaToRegularGrammar.state w)) ->
  map fst (NfaToRegularGrammar.state (NfaToRegularGrammar.run evs w)) =
  map fst (NfaToRegularGrammar.state w).
Proof.
  revert w.
  induction evs as [|ev evs IH]; intros w Hfields; [reflexivity|].
  rewrite run_cons.
  assert (Hstep :
    map fst (NfaToRegularGrammar.state (NfaToRegularGrammar.step ev w)) =
    map fst (NfaToRegularGrammar.state w)).
  { rewrite step_state. apply assign_keys.
    intros k Hk. apply Hfields. exact (stateWrite_keys ev k Hk). }
  rewrite IH; rewrite Hstep; [reflexivity|exact Hfields].
Qed.

Lemma state_keeps_its_fields_witness :
  map fst
    (NfaToRegularGrammar.state
       (NfaToRegularGrammar.run
          [ NfaToRegularGrammar.Edit
              (NfaToRegularGrammar.StatesChange (JArr [JStr "Q"]));
            NfaToRegularGrammar.ConvertClick;
            NfaToRegularGrammar.GrammarSettled
              (inr (JObj [("result", JObj [("Q", JArr [JStr "a"])])])) ]
          NfaToRegularGrammar.constructor)) =
  map fst NfaToRegularGrammar.initialState.
Proof.
  apply (state_keeps_its_fields NfaToRegularGrammar.constructor).
  intros k Hk. exact Hk.
Defined.

Section Sync.

Import NfaToRegularGrammar.

Lemma generateGraphInput_reads (st st' : obj) :
  Forall (fun k => getprop st' k = getprop st k) dfaFields ->
  _generateGraphInput st' = _generateGraphInput st.
Proof.
  unfold dfaFields. intro Hreads.
  repeat match goal with
         | H : Forall _ (_ :: _) |- _ => inversion H; subst; clear H
         end.
  unfold _generateGraphInput, Lodash.clone. congruence.
Qed.

Lemma graphInSync_frame (st st' : obj) :
  getprop st' "graphInput" = getprop st "graphInput" ->
  Forall (fun k => getprop st' k = getprop st k) dfaFields ->
  graphInSync st -> graphInSync st'.
Proof.
  intros Hgraph Hreads [[Hnull Hnone]|Hsync].
  - left. split; [congruence|].
    rewrite Forall_forall in *. intros k Hk.
    rewrite (Hreads k Hk). exact (Hnone k Hk).
  - right. rewrite Hgraph, Hsync.
    symmetry. apply generateGraphInput_reads. exact Hreads.
Qed.

(** The steps that write none of the displayed fields. *)
Lemma step_displayed_frame (ev : event) (w : world) :
  isResponse ev = false ->
  Forall (fun k => getprop (state (step ev w)) k = getprop (state w) k)
         displayedFields.
Proof.
  intro Hev. rewrite step_state.
  destruct ev as [e| |[reason|data]|[reason|data]];
    try discriminate; cbn [stateWrite].
  - destruct e; repeat constructor; apply getprop_assign_frame; reflexivity.
  - repeat constructor; apply getprop_assign_frame; reflexivity.
  - repeat constructor.
  - repeat constructor.
Qed.

Lemma step_graphInSync (ev : event) (w : world) :
  graphInSync (state w) -> graphInSync (state (step ev w)).
Proof.
  intro Hsync.
  destruct ev as [e| |[reason|data]|[reason|data]].
  - pose proof (step_displayed_frame (Edit e) w eq_refl) as Hframe.
    inversion Hframe as [|? ? Hgraph Hrest]; subst.
    inversion Hrest as [|? ? _ Hdfa]; subst.
    exact (graphInSync_frame _ _ Hgraph Hdfa Hsync).
  - pose proof (step_displayed_frame ConvertClick w eq_refl) as Hframe.
    inversion Hframe as [|? ? Hgraph Hrest]; subst.
    inversion Hrest as [|? ? _ Hdfa]; subst.
    exact (graphInSync_frame _ _ Hgraph Hdfa Hsync).
  - exact Hsync.
  - rewrite step_state. cbn [stateWrite].
    destruct (nullish data); [exact Hsync|].
    right. unfold _generateGraphInput, Lodash.clone.
    read_props. reflexivity.
  - exact Hsync.
  - rewrite step_state. cbn [stateWrite].
    destruct (nullish data); [exact Hsync|].
    apply (graphInSync_frame (state w)); [| |exact Hsync].
    + apply getprop_assign_frame. reflexivity.
    + repeat constructor; apply getprop_assign_frame; reflexivity.
Qed.

End Sync.

(** X7: the graph input stays in step with the stored DFA result.  From
    a state in which the graph input is the one built from the
    resulting fields, or in which there is neither (the constructor's
    state), every sequence of events leads to such a state again: the
    graph on display is never that of another DFA than the one held in
    the resulting fields. *)
Theorem graph_input_stays_in_sync
    (w : NfaToRegularGrammar.world) (evs : list NfaToRegularGrammar.event) :
  graphInSync (NfaToRegularGrammar.state w) ->
  graphInSync (NfaToRegularGrammar.state (NfaToRegularGrammar.run evs w)).
Proof.
  revert w.
  induction evs as [|ev evs IH]; intros w Hsync; [exact Hsync|].
  rewrite run_cons. apply IH. apply step_graphInSync. exact Hsync.
Qed.

Lemma graph_input_stays_in_sync_witness :
  graphInSync
    (NfaToRegularGrammar.state
       (NfaToRegularGrammar.run
          [ NfaToRegularGrammar.ConvertClick;
            NfaToRegularGrammar.DfaSettled
              (inr (JObj [("states", JArr [JStr "Q"])]));
            NfaToRegularGrammar.GrammarSettled (inl "Network Error") ]
          NfaToRegularGrammar.constructor)).
Proof.
  apply (graph_input_stays_in_sync NfaToRegularGrammar.constructor).
  left. split; [reflexivity|].
  repeat constructor.
Defined.

(** X8: what is displayed as the result of a conversion changes only
    when a request completes with a response: over any sequence of
    edits, clicks on Convert and rejected requests, the graph input, the
    grammar and the resulting DFA fields stay as they were, and so do
    the displayed graph and the displayed grammar. *)
Theorem results_change_only_on_response
    (Graph : Type) (converter : jsval -> Graph)
    (w : NfaToRegularGrammar.world) (evs : list NfaToRegularGrammar.event) :
  forallb (fun ev => negb (isResponse ev)) evs = true ->
  let w' := NfaToRegularGrammar.run evs w in
  Forall (fun k => getprop (NfaToRegularGrammar.state w') k =
                   getprop (NfaToRegularGrammar.state w) k) displayedFields
  /\ NfaToRegularGrammar.displayedGraph Graph converter
       (NfaToRegularGrammar.state w') =
     NfaToRegularGrammar.displayedGraph Graph converter
       (NfaToRegularGrammar.state w)
  /\ NfaToRegularGrammar.displayedGrammar (NfaToRegularGrammar.state w') =
     NfaToRegularGrammar.displayedGrammar (NfaToRegularGrammar.state w).
Proof.
  intros Hevs w'. subst w'.
  assert (Hfields :
    Forall (fun k => getprop (NfaToRegularGrammar.state
                                (NfaToRegularGrammar.run evs w)) k =
                     getprop (NfaToRegularGrammar.state w) k) displayedFields).
  { revert w.
    induction evs as [|ev evs IH]; intro w.
    - apply Forall_forall. reflexivity.
    - simpl in Hevs. apply andb_true_iff in Hevs as [Hev Hrest].
      apply negb_true_iff in Hev.
      rewrite run_cons.
      pose proof (IH Hrest (NfaToRegularGrammar.step ev w)) as Hlater.
      pose proof (step_displayed_frame ev w Hev) as Hnow.
      rewrite Forall_forall in *. intros k Hk.
      rewrite (Hlater k Hk). exact (Hnow k Hk). }
  split; [exact Hfields|].
  inversion Hfields as [|? ? Hgraph Hrest]; subst.
  inversion Hrest as [|? ? Hgrammar _]; subst.
  unfold NfaToRegularGrammar.displayedGraph,
    NfaToRegularGrammar.displayedGrammar,
    NfaToRegularGrammar.isResultPresent.
  rewrite Hgraph, Hgrammar. split; reflexivity.
Qed.

Lemma results_change_only_on_response_witness :
  NfaToRegularGrammar.displayedGrammar
    (NfaToRegularGrammar.state
       (NfaToRegularGrammar.run
          [ NfaToRegularGrammar.Edit
              (NfaToRegularGrammar.FinalsChange (JArr []));
            NfaToRegularGrammar.ConvertClick;
            NfaToRegularGrammar.DfaSettled (inl "timeout") ]
          NfaToRegularGrammar.constructor)) =
  NfaToRegularGrammar.displayedGrammar
    (NfaToRegularGrammar.state NfaToRegularGrammar.constructor).
Proof.
  apply (results_change_only_on_response jsval (fun graphInput => graphInput)
           NfaToRegularGrammar.constructor
           [ NfaToRegularGrammar.Edit
               (NfaToRegularGrammar.FinalsChange (JArr []));
             NfaToRegularGrammar.ConvertClick;
             NfaToRegularGrammar.DfaSettled (inl "timeout") ]
           eq_refl).
Defined.

(** ** Responses: overwriting, order, odd bodies *)

Section Responses.

Import NfaToRegularGrammar.

Lemma override_same_keys (p1 p2 : obj) (k : string) (old : jsval) :
  (existsb (fun kv => String.eqb k (fst kv)) p2 = false ->
   forallb (fun kv => negb (String.eqb k (fst kv))) p1 = true) ->
  override p2 k (override p1 k old) = override p2 k old.
Proof.
  intro Hkeys.
  destruct (existsb (fun kv => String.eqb k (fst kv)) p2) eqn:Hin.
  - apply override_inside. exact Hin.
  - rewrite (override_outside p1 k old (Hkeys eq_refl)). reflexivity.
Qed.

Lemma run_two_reads (ev1 ev2 : event) (w : world) (k : string) :
  getprop (state (run [ev1; ev2] w)) k =
  override (stateWrite ev2) k
    (override (stateWrite ev1) k (getprop (state w) k)).
Proof.
  unfold run. cbn [fold_left].
  rewrite !step_state, !getprop_assign. reflexivity.
Qed.

Lemma run_one_reads (ev : event) (w : world) (k : string) :
  getprop (state (run [ev] w)) k =
  override (stateWrite ev) k (getprop (state w) k).
Proof.
  unfold run. cbn [fold_left].
  rewrite step_state, getprop_assign. reflexivity.
Qed.

Lemma none_in_all_out (k : string) (partial : obj) :
  existsb (fun kv => String.eqb k (fst kv)) partial = false ->
  forallb (fun kv => negb (String.eqb k (fst kv))) partial = true.
Proof.
  induction partial as [|kv partial IH]; [reflexivity|].
  simpl. intro H. apply orb_false_iff in H as [Hkv Hrest].
  rewrite Hkv, (IH Hrest). reflexivity.
Qed.

End Responses.

(** X9: a later response overwrites an earlier one whole.  After two
    completions of the same request, the second with a response body,
    every field of the state reads as if only the second had arrived,
    whatever the first was: a response that arrives late replaces a
    fresher one that arrived before it. *)
Theorem later_response_wins
    (w : NfaToRegularGrammar.world) (earlier : string + jsval)
    (data : jsval) (k : string) :
  nullish data = false ->
  getprop (NfaToRegularGrammar.state
             (NfaToRegularGrammar.run
                [ NfaToRegularGrammar.DfaSettled earlier;
                  NfaToRegularGrammar.DfaSettled (inr data) ] w)) k =
  getprop (NfaToRegularGrammar.state
             (NfaToRegularGrammar.run
                [ NfaToRegularGrammar.DfaSettled (inr data) ] w)) k
  /\
  getprop (NfaToRegularGrammar.state
             (NfaToRegularGrammar.run
                [ NfaToRegularGrammar.GrammarSettled earlier;
                  NfaToRegularGrammar.GrammarSettled (inr data) ] w)) k =
  getprop (NfaToRegularGrammar.state
             (NfaToRegularGrammar.run
                [ NfaToRegularGrammar.GrammarSettled (inr data) ] w)) k.
Proof.
  intro Hdata.
  rewrite !run_two_reads, !run_one_reads.
  split; apply override_same_keys; cbn [stateWrite]; rewrite Hdata;
    intro Hout;
    (destruct earlier as [reason|data1]; [reflexivity|]);
    (destruct (nullish data1); [reflexivity|]);
    apply none_in_all_out; exact Hout.
Qed.

Lemma later_response_wins_witness :
  getprop (NfaToRegularGrammar.state
             (NfaToRegularGrammar.run
                [ NfaToRegularGrammar.GrammarSettled
                    (inr (JObj [("result", JObj [("q0", JArr [JStr "a"])])]));
                  NfaToRegularGrammar.GrammarSettled
                    (inr (JObj [("result", JObj [])])) ]
                NfaToRegularGrammar.constructor)) "resultingGrammar" =
  getprop (NfaToRegularGrammar.state
             (NfaToRegularGrammar.run
                [ NfaToRegularGrammar.GrammarSettled
                    (inr (JObj [("result", JObj [])])) ]
                NfaToRegularGrammar.constructor)) "resultingGrammar".
Proof.
  apply (later_response_wins NfaToRegularGrammar.constructor
           (inr (JObj [("result", JObj [("q0", JArr [JStr "a"])])]))
           (JObj [("result", JObj [])]) "resultingGrammar" eq_refl).
Defined.

(** X10: the completions of the DFA request and of the grammar request
    commute, whatever their outcomes: in either order every field of the
    state reads the same, the same notifications are raised (each in the
    order of arrival) and nothing is posted. *)
Theorem completions_commute
    (w : NfaToRegularGrammar.world) (dfa grammar : string + jsval) :
  let dfaFirst := NfaToRegularGrammar.run
        [ NfaToRegularGrammar.DfaSettled dfa;
          NfaToRegularGrammar.GrammarSettled grammar ] w in
  let grammarFirst := NfaToRegularGrammar.run
        [ NfaToRegularGrammar.GrammarSettled grammar;
          NfaToRegularGrammar.DfaSettled dfa ] w in
  (forall k : string,
     getprop (NfaToRegularGrammar.state dfaFirst) k =
     getprop (NfaToRegularGrammar.state grammarFirst) k)
  /\ Permutation (NfaToRegularGrammar.alerts dfaFirst)
                 (NfaToRegularGrammar.alerts grammarFirst)
  /\ NfaToRegularGrammar.posts dfaFirst = NfaToRegularGrammar.posts w
  /\ NfaToRegularGrammar.posts grammarFirst = NfaToRegularGrammar.posts w.
Proof.
  cbv zeta. split.
  { intro k. rewrite !run_two_reads.
    destruct dfa as [reason|d]; destruct grammar as [reason'|g];
      cbn [stateWrite]; try reflexivity.
    destruct (nullish d); [reflexivity|].
    destruct (nullish g); [reflexivity|].
    unfold override. cbn [fold_left fst snd].
    destruct (String.eqb k "loading"); [reflexivity|].
    destruct (String.eqb k "resultingGrammar") eqn:Hk; [|reflexivity].
    apply String.eqb_eq in Hk. subst k. reflexivity. }
  unfold NfaToRegularGrammar.run, NfaToRegularGrammar.step,
    NfaToRegularGrammar.settle, NfaToRegularGrammar.dfaThen,
    NfaToRegularGrammar.grammarThen, member.
  cbn [fold_left].
  destruct dfa as [reason|d]; destruct grammar as [reason'|g];
    try destruct (nullish d); try destruct (nullish g);
    cbn [NfaToRegularGrammar.onCatch NfaToRegularGrammar.alert
         NfaToRegularGrammar.setState NfaToRegularGrammar.alerts
         NfaToRegularGrammar.posts NfaToRegularGrammar.state];
    (split; [|split; reflexivity]);
    try apply Permutation_refl.
  all: rewrite <- !app_assoc; apply Permutation_app_head; apply perm_swap.
Qed.

(** X11: the first response clears the spinner.  After a click on
    Convert, a response of either request, arriving alone, sets loading
    to false: the spinner goes off while the other request of the same
    click is still under way. *)
Theorem first_response_clears_spinner
    (w : NfaToRegularGrammar.world) (data : jsval) :
  nullish data = false ->
  NfaToRegularGrammar.spinnerShown
    (NfaToRegularGrammar.state
       (NfaToRegularGrammar.run [NfaToRegularGrammar.ConvertClick] w)) = true
  /\ NfaToRegularGrammar.spinnerShown
       (NfaToRegularGrammar.state
          (NfaToRegularGrammar.run
             [ NfaToRegularGrammar.ConvertClick;
               NfaToRegularGrammar.DfaSettled (inr data) ] w)) = false
  /\ NfaToRegularGrammar.spinnerShown
       (NfaToRegularGrammar.state
          (NfaToRegularGrammar.run
             [ NfaToRegularGrammar.ConvertClick;
               NfaToRegularGrammar.GrammarSettled (inr data) ] w)) = false.
Proof.
  intro Hdata.
  unfold NfaToRegularGrammar.spinnerShown.
  rewrite run_one_reads, !run_two_reads.
  cbn [stateWrite]. rewrite Hdata.
  repeat split; reflexivity.
Qed.

Lemma first_response_clears_spinner_witness :
  NfaToRegularGrammar.spinnerShown
    (NfaToRegularGrammar.state
       (NfaToRegularGrammar.run
          [ NfaToRegularGrammar.ConvertClick;
            NfaToRegularGrammar.GrammarSettled (inr (JObj [])) ]
          NfaToRegularGrammar.constructor)) = false.
Proof.
  apply (first_response_clears_spinner NfaToRegularGrammar.constructor
           (JObj []) eq_refl).
Defined.

(** X12: a response whose body is null or undefined is handled as a
    failure of the request: the then callback throws a TypeError on its
    first property read, the catch callback of the chain reports it, and
    the state stays as it was, the spinner included. *)
Theorem response_without_body
    (w : NfaToRegularGrammar.world) (data : jsval) :
  nullish data = true ->
  NfaToRegularGrammar.step (NfaToRegularGrammar.DfaSettled (inr data)) w =
    NfaToRegularGrammar.mkWorld
      (NfaToRegularGrammar.state w)
      (NfaToRegularGrammar.alerts w ++
       [NfaToRegularGrammar.Thrown TypeError])
      (NfaToRegularGrammar.posts w)
  /\ NfaToRegularGrammar.step (NfaToRegularGrammar.GrammarSettled (inr data)) w =
     NfaToRegularGrammar.mkWorld
       (NfaToRegularGrammar.state w)
       (NfaToRegularGrammar.alerts w ++
        [NfaToRegularGrammar.Thrown TypeError])
       (NfaToRegularGrammar.posts w).
Proof.
  intro Hdata.
  unfold NfaToRegularGrammar.step, NfaToRegularGrammar.settle,
    NfaToRegularGrammar.dfaThen, NfaToRegularGrammar.grammarThen, member.
  rewrite Hdata. split; reflexivity.
Qed.

Lemma response_without_body_witness :
  NfaToRegularGrammar.alerts
    (NfaToRegularGrammar.step (NfaToRegularGrammar.DfaSettled (inr JNull))
       NfaToRegularGrammar.constructor) =
  [NfaToRegularGrammar.Thrown TypeError].
Proof.
  rewrite (proj1 (response_without_body NfaToRegularGrammar.constructor
                    JNull eq_refl)).
  reflexivity.
Defined.

(** X13: what render hands to renderGrammar after a grammar response.
    The result field of the body is stored as it is; render calls
    renderGrammar with it unless it is null.  A body without a result
    field stores undefined, which counts as present, so renderGrammar is
    called with undefined; a null result hides the grammar displayed
    before. *)
Theorem grammar_response_display
    (w : NfaToRegularGrammar.world) (data : jsval) :
  nullish data = false ->
  let st' := NfaToRegularGrammar.state
               (NfaToRegularGrammar.step
                  (NfaToRegularGrammar.GrammarSettled (inr data)) w) in
  getprop st' "resultingGrammar" = prop data "result"
  /\ NfaToRegularGrammar.displayedGrammar st' =
     match prop data "result" with
     | JNull => None
     | result => Some result
     end
  /\ (forall props : obj,
        data = JObj props -> lookup "result" props = None ->
        NfaToRegularGrammar.displayedGrammar st' = Some JUndefined).
Proof.
  intros Hdata st'. subst st'.
  assert (Hstored :
    getprop (NfaToRegularGrammar.state
               (NfaToRegularGrammar.step
                  (NfaToRegularGrammar.GrammarSettled (inr data)) w))
            "resultingGrammar" = prop data "result").
  { rewrite step_state, getprop_assign. cbn [stateWrite].
    rewrite Hdata. reflexivity. }
  assert (Hshown :
    NfaToRegularGrammar.displayedGrammar
      (NfaToRegularGrammar.state
         (NfaToRegularGrammar.step
            (NfaToRegularGrammar.GrammarSettled (inr data)) w)) =
    match prop data "result" with
    | JNull => None
    | result => Some result
    end).
  { unfold NfaToRegularGrammar.displayedGrammar,
      NfaToRegularGrammar.isResultPresent.
    rewrite Hstored. cbn [forallb].
    destruct (prop data "result"); reflexivity. }
  split; [exact Hstored|].
  split; [exact Hshown|].
  intros props -> Hmissing.
  rewrite Hshown. unfold prop, getprop. rewrite Hmissing. reflexivity.
Qed.

Lemma grammar_response_display_witness :
  NfaToRegularGrammar.displayedGrammar
    (NfaToRegularGrammar.state
       (NfaToRegularGrammar.step
          (NfaToRegularGrammar.GrammarSettled
             (inr (JObj [("error", JStr "bad automaton")])))
          NfaToRegularGrammar.constructor)) = Some JUndefined.
Proof.
  pose proof (grammar_response_display NfaToRegularGrammar.constructor
                (JObj [("error", JStr "bad automaton")]) eq_refl) as Hshown.
  cbv zeta in Hshown. destruct Hshown as [_ [_ Hmissing]].
  exact (Hmissing [("error", JStr "bad automaton")] eq_refl eq_refl).
Defined.

(** X14: the graph input keeps of a DFA response the five automaton
    fields and nothing else: a field the body lacks is undefined, any
    other field of the body is dropped.  A body that is not an object (a
    string, a number, an array) still replaces the graph input, by one
    whose five fields are all undefined, and that one is displayed. *)
Theorem graph_input_of_response
    (Graph : Type) (converter : jsval -> Graph)
    (w : NfaToRegularGrammar.world) (data : jsval) :
  nullish data = false ->
  let st' := NfaToRegularGrammar.state
               (NfaToRegularGrammar.step
                  (NfaToRegularGrammar.DfaSettled (inr data)) w) in
  getprop st' "graphInput" = graphInputOf data
  /\ (forall k : string,
        prop (graphInputOf data) k =
        if existsb (String.eqb k) inputFields then prop data k
        else JUndefined)
  /\ (isObject data = false ->
      graphInputOf data =
        JObj (map (fun k => (k, JUndefined)) inputFields)
      /\ NfaToRegularGrammar.displayedGraph Graph converter st' =
         Some (converter (JObj (map (fun k => (k, JUndefined)) inputFields)))).
Proof.
  intros Hdata st'. subst st'.
  assert (Hstored :
    getprop (NfaToRegularGrammar.state
               (NfaToRegularGrammar.step
                  (NfaToRegularGrammar.DfaSettled (inr data)) w))
            "graphInput" = graphInputOf data).
  { rewrite step_state, getprop_assign. cbn [stateWrite].
    rewrite Hdata. reflexivity. }
  split; [exact Hstored|].
  split.
  { intro k. unfold graphInputOf, prop at 1, getprop, inputFields.
    cbn [lookup existsb].
    repeat match goal with
           | |- context [String.eqb k ?lit] =>
               let Hk := fresh "Hk" in
               destruct (String.eqb k lit) eqn:Hk; cbn [orb];
               [apply String.eqb_eq in Hk; subst k; reflexivity|]
           end.
    reflexivity. }
  intro Hshape.
  assert (Hempty :
    graphInputOf data = JObj (map (fun k => (k, JUndefined)) inputFields)).
  { destruct data; try discriminate; reflexivity. }
  split; [exact Hempty|].
  unfold NfaToRegularGrammar.displayedGraph.
  rewrite Hstored, Hempty. reflexivity.
Qed.

Lemma graph_input_of_response_witness :
  NfaToRegularGrammar.displayedGraph jsval (fun graphInput => graphInput)
    (NfaToRegularGrammar.state
       (NfaToRegularGrammar.step
          (NfaToRegularGrammar.DfaSettled (inr (JStr "<html>502</html>")))
          NfaToRegularGrammar.constructor)) =
  Some (JObj (map (fun k => (k, JUndefined)) inputFields)).
Proof.
  apply (graph_input_of_response jsval (fun graphInput => graphInput)
           NfaToRegularGrammar.constructor (JStr "<html>502</html>")
           eq_refl).
  reflexivity.
Defined.

(** X15: opening and closing the information modal writes the
    isModalOpen flag alone, true on open and false on close, whatever
    it held; every other field, the notifications and the posted
    requests stay as they were, so the modal can be used while a
    conversion is under way without disturbing it. *)
Theorem modal_handlers_touch_the_flag_only
    (w : NfaToRegularGrammar.world) :
  (forall k : string,
     getprop (NfaToRegularGrammar.state (NfaToRegularGrammar._openModal w)) k =
     if String.eqb k "isModalOpen" then JBool true
     else getprop (NfaToRegularGrammar.state w) k)
  /\ (forall k : string,
        getprop (NfaToRegularGrammar.state (NfaToRegularGrammar._closeModal w)) k =
        if String.eqb k "isModalOpen" then JBool false
        else getprop (NfaToRegularGrammar.state w) k)
  /\ NfaToRegularGrammar.state
       (NfaToRegularGrammar._closeModal (NfaToRegularGrammar._openModal w)) =
     NfaToRegularGrammar.state (NfaToRegularGrammar._closeModal w)
  /\ NfaToRegularGrammar.alerts (NfaToRegularGrammar._openModal w) =
     NfaToRegularGrammar.alerts w
  /\ NfaToRegularGrammar.posts (NfaToRegularGrammar._openModal w) =
     NfaToRegularGrammar.posts w
  /\ NfaToRegularGrammar.alerts (NfaToRegularGrammar._closeModal w) =
     NfaToRegularGrammar.alerts w
  /\ NfaToRegularGrammar.posts (NfaToRegularGrammar._closeModal w) =
     NfaToRegularGrammar.posts w.
Proof.
  split; [intro k; apply getprop_assign_one|].
  split; [intro k; apply getprop_assign_one|].
  split; [|repeat split; reflexivity].
  unfold NfaToRegularGrammar._closeModal, NfaToRegularGrammar._openModal,
    NfaToRegularGrammar.setState, assign.
  cbn [NfaToRegularGrammar.state fold_left fst snd].
  apply setprop_twice.
Qed.

(** ** Clicks on Visualize *)

Section VisualizeSteps.

Import UiContainer.

Variable JSON_parse : jsval -> option jsval.

(** The three ways a click on Visualize can end. *)
Lemma visualize_cases (w : world) :
  (nullish (getprop (state w) "initial") = true
   /\ onVisualizeClick JSON_parse w = (w, Some TypeError))
  \/ (nullish (getprop (state w) "initial") = false
      /\ JSON_parse (getprop (state w) "transitionMap") = None
      /\ onVisualizeClick JSON_parse w =
         (mkWorld (state w) (parsed w ++ [getprop (state w) "transitionMap"]),
          Some SyntaxError))
  \/ (exists generatedOut : jsval,
        nullish (getprop (state w) "initial") = false
        /\ _generateGraphInput JSON_parse (state w) (parsed w) =
           ((parsed w ++ [getprop (state w) "transitionMap"])%list,
            inr generatedOut)
        /\ onVisualizeClick JSON_parse w =
           (mkWorld (setprop "graphInput" generatedOut (state w))
                    (parsed w ++ [getprop (state w) "transitionMap"]),
            None)).
Proof.
  destruct w as [st trace]. cbn [state parsed].
  unfold onVisualizeClick, _generateGraphInput, Lodash.clone.
  cbn [state parsed].
  destruct (getprop st "initial") eqn:Hinit; cbn [index0 nullish];
    try (left; split; reflexivity);
    destruct (JSON_parse (getprop st "transitionMap")) eqn:Hparse;
    try (right; left; repeat split; reflexivity);
    right; right; eexists; repeat split; reflexivity.
Qed.

Lemma generateGraphInput_reads_inputs (st st' : obj) (trace : list jsval) :
  Forall (fun k => getprop st' k = getprop st k) inputFields ->
  _generateGraphInput JSON_parse st' trace =
  _generateGraphInput JSON_parse st trace.
Proof.
  unfold inputFields. intro Hreads.
  repeat match goal with
         | H : Forall _ (_ :: _) |- _ => inversion H; subst; clear H
         end.
  unfold _generateGraphInput, Lodash.clone.
  repeat match goal with
         | H : getprop st' _ = getprop st _ |- _ => rewrite H; clear H
         end.
  reflexivity.
Qed.

End VisualizeSteps.

(** X16: a click on Visualize writes at most the graphInput field.  With
    an initial field that is null or undefined it fails with a TypeError
    before JSON.parse is called and changes nothing; when the transition
    text does not parse it fails with a SyntaxError and the state,
    the graph shown before included, stays as it was; otherwise only
    graphInput is replaced. *)
Theorem visualize_click_outcome
    (JSON_parse : jsval -> option jsval) (w : UiContainer.world) :
  let after := UiContainer.onVisualizeClick JSON_parse w in
  (forall k : string,
     String.eqb k "graphInput" = false ->
     getprop (UiContainer.state (fst after)) k = getprop (UiContainer.state w) k)
  /\ (snd after <> None ->
      UiContainer.state (fst after) = UiContainer.state w)
  /\ (nullish (getprop (UiContainer.state w) "initial") = true ->
      after = (w, Some TypeError))
  /\ (snd after = Some SyntaxError <->
      nullish (getprop (UiContainer.state w) "initial") = false
      /\ JSON_parse (getprop (UiContainer.state w) "transitionMap") = None).
Proof.
  cbv zeta.
  destruct (visualize_cases JSON_parse w)
    as [[Hinit Hclick]|[[Hinit [Hparse Hclick]]|[out [Hinit [Hgen Hclick]]]]];
    rewrite Hclick; cbn [fst snd UiContainer.state].
  - split; [reflexivity|]. split; [reflexivity|]. split; [reflexivity|].
    split; [discriminate|]. intros [Hinit' _]. congruence.
  - split; [reflexivity|]. split; [reflexivity|].
    split; [congruence|]. split; [intros _; split; assumption|reflexivity].
  - split.
    { intros k Hk. rewrite getprop_setprop, Hk. reflexivity. }
    split; [intro Hnone; contradiction Hnone; reflexivity|].
    split; [congruence|].
    split; [discriminate|].
    intros [_ Hparse].
    unfold UiContainer._generateGraphInput, Lodash.clone in Hgen.
    destruct (index0 (getprop (UiContainer.state w) "initial"));
      [discriminate|].
    rewrite Hparse in Hgen. discriminate.
Qed.

Lemma visualize_click_outcome_witness :
  snd (UiContainer.onVisualizeClick parseEmptyObject UiContainer.constructor) =
  Some SyntaxError.
Proof.
  apply (visualize_click_outcome parseEmptyObject UiContainer.constructor).
  split; reflexivity.
Defined.

(** X17: a second click on Visualize, with no edit in between, ends as
    the first did and leaves the state the first left: the graph input
    is rebuilt from the same fields.  Only the text is parsed again. *)
Theorem visualize_twice
    (JSON_parse : jsval -> option jsval) (w : UiContainer.world) :
  let once := UiContainer.onVisualizeClick JSON_parse w in
  let twice := UiContainer.onVisualizeClick JSON_parse (fst once) in
  UiContainer.state (fst twice) = UiContainer.state (fst once)
  /\ snd twice = snd once
  /\ UiContainer.state (uiRun JSON_parse [VisualizeClick; VisualizeClick] w) =
     UiContainer.state (uiRun JSON_parse [VisualizeClick] w).
Proof.
  cbv zeta.
  assert (Hboth :
    UiContainer.state
      (fst (UiContainer.onVisualizeClick JSON_parse
              (fst (UiContainer.onVisualizeClick JSON_parse w)))) =
    UiContainer.state (fst (UiContainer.onVisualizeClick JSON_parse w))
    /\ snd (UiContainer.onVisualizeClick JSON_parse
              (fst (UiContainer.onVisualizeClick JSON_parse w))) =
       snd (UiContainer.onVisualizeClick JSON_parse w)).
  { destruct (visualize_cases JSON_parse w)
      as [[Hinit Hclick]|[[Hinit [Hparse Hclick]]|[out [Hinit [Hgen Hclick]]]]];
      rewrite Hclick; cbn [fst].
    - rewrite Hclick. split; reflexivity.
    - unfold UiContainer.onVisualizeClick, UiContainer._generateGraphInput,
        Lodash.clone.
      cbn [UiContainer.state UiContainer.parsed].
      destruct (getprop (UiContainer.state w) "initial");
        try discriminate; cbn [index0]; rewrite Hparse; split; reflexivity.
    - unfold UiContainer.onVisualizeClick.
      cbn [UiContainer.state UiContainer.parsed].
      rewrite (generateGraphInput_reads_inputs JSON_parse
                 (UiContainer.state w)
                 (setprop "graphInput" out (UiContainer.state w))).
      2:{ repeat constructor; rewrite getprop_setprop; reflexivity. }
      unfold UiContainer._generateGraphInput, Lodash.clone in *.
      destruct (index0 (getprop (UiContainer.state w) "initial"));
        [discriminate|].
      destruct (JSON_parse (getprop (UiContainer.state w) "transitionMap"));
        [|discriminate].
      injection Hgen as <-.
      cbn [fst snd UiContainer.setState UiContainer.state assign fold_left].
      split; [apply setprop_twice|reflexivity]. }
  destruct Hboth as [Hstate Houtcome].
  split; [exact Hstate|]. split; [exact Houtcome|].
  exact Hstate.
Qed.

(** X18: JSON.parse is called by clicks on Visualize only, at most once
    per click: over any sequence of edits and clicks the trace of parse
    calls grows by at most one entry per click, and by none when the
    sequence holds edits alone. *)
Theorem parse_only_on_click
    (JSON_parse : jsval -> option jsval)
    (evs : list uiEvent) (w : UiContainer.world) :
  exists calls : list jsval,
    UiContainer.parsed (uiRun JSON_parse evs w) =
      (UiContainer.parsed w ++ calls)%list
    /\ List.length calls <= List.length (filter isVisualizeClick evs).
Proof.
  revert w.
  induction evs as [|ev evs IH]; intro w.
  - exists []. split; [simpl; rewrite app_nil_r; reflexivity|simpl; lia].
  - change (uiRun JSON_parse (ev :: evs) w)
      with (uiRun JSON_parse evs (uiStep JSON_parse ev w)).
    destruct (IH (uiStep JSON_parse ev w)) as [later [Hlater Hn]].
    destruct ev as [e|]; cbn [uiStep] in *.
    + exists later. split; [|simpl; exact Hn].
      rewrite Hlater. destruct e; reflexivity.
    + destruct (visualize_cases JSON_parse w)
        as [[Hinit Hclick]|[[Hinit [Hparse Hclick]]|[out [Hinit [Hgen Hclick]]]]];
        rewrite Hclick in *; cbn [fst UiContainer.parsed] in *.
      * exists later. split; [exact Hlater|simpl; lia].
      * exists (getprop (UiContainer.state w) "transitionMap" :: later).
        split; [rewrite Hlater, <- app_assoc; reflexivity|simpl; lia].
      * exists (getprop (UiContainer.state w) "transitionMap" :: later).
        split; [rewrite Hlater, <- app_assoc; reflexivity|simpl; lia].
Qed.

(** ** Edits and what is submitted after them *)

(** X19: with an empty initial-state list nothing fails: a click on
    Convert posts both requests with an undefined initial field, and a
    click on Visualize, when the transition text parses, sets a graph
    input whose initial field is undefined. *)
Theorem empty_initial_list_is_submitted
    (JSON_parse : jsval -> option jsval)
    (w : NfaToRegularGrammar.world) (u : UiContainer.world) :
  (getprop (NfaToRegularGrammar.state w) "initial" = JArr [] ->
   snd (NfaToRegularGrammar._convertToRegularGrammar w) = None
   /\ map (fun post => (fst post, prop (snd post) "initial"))
        (NfaToRegularGrammar.posts
           (fst (NfaToRegularGrammar._convertToRegularGrammar w))) =
      (map (fun post => (fst post, prop (snd post) "initial"))
           (NfaToRegularGrammar.posts w) ++
       [ (NfaToRegularGrammar.nfaToDfaApi, JUndefined);
         (NfaToRegularGrammar.nfaToGrammarApi, JUndefined) ])%list)
  /\
  (getprop (UiContainer.state u) "initial" = JArr [] ->
   forall transitionMap : jsval,
     JSON_parse (getprop (UiContainer.state u) "transitionMap") =
       Some transitionMap ->
     snd (UiContainer.onVisualizeClick JSON_parse u) = None
     /\ prop (getprop (UiContainer.state
                         (fst (UiContainer.onVisualizeClick JSON_parse u)))
                      "graphInput") "initial" = JUndefined).
Proof.
  split.
  - intro Hinit.
    assert (Hbody :
      NfaToRegularGrammar._generateRequestBody (NfaToRegularGrammar.state w) =
      inr (JObj [ ("alphabet", getprop (NfaToRegularGrammar.state w) "alphabet");
                  ("states", getprop (NfaToRegularGrammar.state w) "states");
                  ("initial", JUndefined);
                  ("finals", getprop (NfaToRegularGrammar.state w) "finals");
                  ("transitionMap",
                   getprop (NfaToRegularGrammar.state w) "transitionMap") ])).
    { unfold NfaToRegularGrammar._generateRequestBody, Lodash.clone.
      rewrite Hinit. reflexivity. }
    rewrite (convert_posts w _ Hbody).
    cbn [fst snd NfaToRegularGrammar.posts].
    split; [reflexivity|].
    rewrite map_app. reflexivity.
  - intros Hinit transitionMap Hparse.
    assert (Hnn : nullish (getprop (UiContainer.state u) "initial") = false)
      by (rewrite Hinit; reflexivity).
    destruct (visualize_parsed JSON_parse u transitionMap Hnn Hparse)
      as [first [Hfirst Hclick]].
    rewrite Hinit in Hfirst. cbn [index0 nth] in Hfirst.
    injection Hfirst as <-.
    rewrite Hclick. cbn [fst snd].
    split; [reflexivity|].
    unfold UiContainer.setState. cbn [UiContainer.state].
    rewrite getprop_assign_one. reflexivity.
Qed.

Lemma empty_initial_list_is_submitted_witness :
  snd (NfaToRegularGrammar._convertToRegularGrammar
         (NfaToRegularGrammar._handleInitialChange (JArr [])
            NfaToRegularGrammar.constructor)) = None.
Proof.
  apply (empty_initial_list_is_submitted parseEmptyObject
           (NfaToRegularGrammar._handleInitialChange (JArr [])
              NfaToRegularGrammar.constructor)
           UiContainer.constructor).
  reflexivity.
Defined.

(** X20: edits compose field by field.  After two edits every field
    reads the value of the last edit that names it, and the old value
    if neither does; so edits of different fields give the same state
    reads in either order, and of two edits of one field the later
    wins. *)
Theorem edits_compose
    (e1 e2 : NfaToRegularGrammar.edit) (w : NfaToRegularGrammar.world)
    (k : string) :
  getprop (NfaToRegularGrammar.state
             (NfaToRegularGrammar.applyEdit e2
                (NfaToRegularGrammar.applyEdit e1 w))) k =
    (if String.eqb k (editKey e2) then editValue e2
     else if String.eqb k (editKey e1) then editValue e1
     else getprop (NfaToRegularGrammar.state w) k)
  /\ (String.eqb (editKey e1) (editKey e2) = false ->
      getprop (NfaToRegularGrammar.state
                 (NfaToRegularGrammar.applyEdit e2
                    (NfaToRegularGrammar.applyEdit e1 w))) k =
      getprop (NfaToRegularGrammar.state
                 (NfaToRegularGrammar.applyEdit e1
                    (NfaToRegularGrammar.applyEdit e2 w))) k).
Proof.
  assert (Hread : forall (e : NfaToRegularGrammar.edit)
                         (v : NfaToRegularGrammar.world) (key : string),
    getprop (NfaToRegularGrammar.state (NfaToRegularGrammar.applyEdit e v)) key =
    if String.eqb key (editKey e) then editValue e
    else getprop (NfaToRegularGrammar.state v) key).
  { intros e v key. destruct e; apply getprop_assign_one. }
  split; [rewrite !Hread; reflexivity|].
  intro Hkeys. rewrite !Hread.
  destruct (String.eqb k (editKey e2)) eqn:H2;
    destruct (String.eqb k (editKey e1)) eqn:H1; try reflexivity.
  apply String.eqb_eq in H1. apply String.eqb_eq in H2.
  apply String.eqb_neq in Hkeys. congruence.
Qed.

Lemma edits_compose_witness :
  getprop (NfaToRegularGrammar.state
             (NfaToRegularGrammar.applyEdit
                (NfaToRegularGrammar.FinalsChange (JArr [JStr "E"]))
                (NfaToRegularGrammar.applyEdit
                   (NfaToRegularGrammar.StatesChange (JArr [JStr "E"]))
                   NfaToRegularGrammar.constructor))) "states" =
  getprop (NfaToRegularGrammar.state
             (NfaToRegularGrammar.applyEdit
                (NfaToRegularGrammar.StatesChange (JArr [JStr "E"]))
                (NfaToRegularGrammar.applyEdit
                   (NfaToRegularGrammar.FinalsChange (JArr [JStr "E"]))
                   NfaToRegularGrammar.constructor))) "states".
Proof.
  apply (edits_compose
           (NfaToRegularGrammar.StatesChange (JArr [JStr "E"]))
           (NfaToRegularGrammar.FinalsChange (JArr [JStr "E"]))
           NfaToRegularGrammar.constructor "states").
  reflexivity.
Defined.

(** X21: the request carries the latest edit.  When a click on Convert
    follows an edit and the request can be built, the request holds the
    edited value in the edited field; for the initial field it holds the
    first element of the edited list, and every other input field is
    that of the state before the edit. *)
Theorem convert_posts_latest_edit
    (e : NfaToRegularGrammar.edit) (w : NfaToRegularGrammar.world)
    (request : jsval) :
  NfaToRegularGrammar._generateRequestBody
    (NfaToRegularGrammar.state (NfaToRegularGrammar.applyEdit e w)) =
    inr request ->
  NfaToRegularGrammar.posts
    (NfaToRegularGrammar.run
       [NfaToRegularGrammar.Edit e; NfaToRegularGrammar.ConvertClick] w) =
    (NfaToRegularGrammar.posts w ++ bothEndpoints [request])%list
  /\ (if String.eqb (editKey e) "initial"
      then index0 (editValue e) = inr (prop request "initial")
      else prop request (editKey e) = editValue e)
  /\ (forall k : string,
        In k inputFields -> k <> "initial" -> k <> editKey e ->
        prop request k = getprop (NfaToRegularGrammar.state w) k).
Proof.
  intro Hreq.
  assert (Hread : forall key : string,
    getprop (NfaToRegularGrammar.state (NfaToRegularGrammar.applyEdit e w)) key =
    if String.eqb key (editKey e) then editValue e
    else getprop (NfaToRegularGrammar.state w) key).
  { intro key. destruct e; apply getprop_assign_one. }
  split.
  { unfold NfaToRegularGrammar.run.
    cbn [fold_left NfaToRegularGrammar.step].
    rewrite (convert_posts _ request Hreq).
    cbn [fst NfaToRegularGrammar.posts].
    destruct e; reflexivity. }
  unfold NfaToRegularGrammar._generateRequestBody, Lodash.clone in Hreq.
  destruct (index0 (getprop (NfaToRegularGrammar.state
                               (NfaToRegularGrammar.applyEdit e w)) "initial"))
    as [err|first] eqn:Hfirst; [discriminate|].
  injection Hreq as <-.
  rewrite Hread in Hfirst. rewrite !Hread.
  split.
  - destruct e; cbn [editKey editValue String.eqb Ascii.eqb Bool.eqb] in *;
      try reflexivity.
    exact Hfirst.
  - intros k Hk Hinit Hedit.
    unfold inputFields in Hk. simpl in Hk.
    assert (Hne : forall key, key <> editKey e -> String.eqb key (editKey e) = false).
    { intros key Hkey. apply String.eqb_neq. exact Hkey. }
    destruct Hk as [<-|[<-|[<-|[<-|[<-|[]]]]]];
      try contradiction; rewrite (Hne _ Hedit); reflexivity.
Qed.

Lemma convert_posts_latest_edit_witness :
  exists request : jsval,
    prop request "finals" = JArr [JStr "E"; JStr "W"]
    /\ NfaToRegularGrammar.posts
         (NfaToRegularGrammar.run
            [ NfaToRegularGrammar.Edit
                (NfaToRegularGrammar.FinalsChange (JArr [JStr "E"; JStr "W"]));
              NfaToRegularGrammar.ConvertClick ]
            NfaToRegularGrammar.constructor) =
       bothEndpoints [request].
Proof.
  eexists. 
  pose proof (convert_posts_latest_edit
                (NfaToRegularGrammar.FinalsChange (JArr [JStr "E"; JStr "W"]))
                NfaToRegularGrammar.constructor _ eq_refl) as [Hposts [Hfield _]].
  split; [exact Hfield|exact Hposts].
Defined.
